(** * Source mappings of Solidity contracts

    A shallow embedding of [mythril/solidity/soliditycontract.py]: the
    decoder of solc's compact source maps ([_get_solc_mappings]), the
    classification of compiler generated code ([_is_autogenerated_code]),
    the extraction of whole-contract ranges from the AST
    ([get_full_contract_sources]) and the resolution of an instruction
    address to a source location ([get_source_info]).

    Conventions of the embedding.
    - A Python [str] is represented by the byte string of its UTF-8
      encoding (a Rocq [string]), so [data.encode("utf-8")] is the identity
      of the model.  Splitting on [":"] or [";"] is the same on both sides,
      these being ASCII bytes that never occur inside a multi-byte
      sequence, and so is the test [len(s) > 0].
    - A Python [int] is a [Z].
    - A raised exception is a value of [exn]; code that may raise lives in
      the [result] monad.
    - The object [self] is threaded explicitly: a method that mutates it
      returns the new object next to its outcome. *)

From Stdlib Require Import ZArith Ascii String List Lia DecimalString DecimalPos.
From stdpp Require Import base option list strings gmap sorting.

Local Set Warnings "-clear-no-such-hyp".

Local Open Scope string_scope.
Local Open Scope list_scope.
Local Open Scope Z_scope.

(** ** Exceptions and the result monad *)

Inductive exn : Set :=
| UnboundLocalError
| ValueError
| IndexError
| KeyError
| TypeError.

Inductive result (A : Type) : Type :=
| Return (a : A)
| Raise (e : exn).
Arguments Return {A} a.
Arguments Raise {A} e.

Definition bind {A B : Type} (m : result A) (k : A → result B) : result B :=
  match m with
  | Return a => k a
  | Raise e => Raise e
  end.

Notation "'do' x <- m ; k" := (bind m (fun x => k))
  (at level 10, x name, m at level 100, k at level 200,
   format "'[v' 'do'  x  <-  m ; '/' k ']'").

(** ** Python sequences *)

(** [l[i]] for a list and an integer: negative indices count from the end,
    anything out of range raises [IndexError]. *)
Definition py_index {A : Type} (l : list A) (i : Z) : result A :=
  let n := Z.of_nat (length l) in
  let j := if i <? 0 then i + n else i in
  if (j <? 0) || (n <=? j) then Raise IndexError
  else match l !! Z.to_nat j with
       | Some x => Return x
       | None => Raise IndexError
       end.

(** A slice bound is clamped into [0, n], negative bounds counting from
    the end. *)
Definition clamp_index (n i : Z) : Z :=
  if i <? 0 then Z.max 0 (i + n) else Z.min i n.

Definition list_slice {A : Type} (l : list A) (lo hi : Z) : list A :=
  let n := Z.of_nat (length l) in
  let a := clamp_index n lo in
  let b := clamp_index n hi in
  take (Z.to_nat (b - a)) (drop (Z.to_nat a) l).

(** [s[lo:hi]] on a byte string. *)
Definition py_slice (s : string) (lo hi : Z) : string :=
  string_of_list_ascii (list_slice (list_ascii_of_string s) lo hi).

(** [s.count(c)] for a one byte pattern. *)
Fixpoint count (s : string) (c : ascii) : Z :=
  match s with
  | EmptyString => 0
  | String a s' => (if Ascii.eqb a c then 1 else 0) + count s' c
  end.

(** [s.split(sep)] for a one byte separator: never the empty list. *)
Fixpoint split (sep : ascii) (s : string) : list string :=
  match s with
  | EmptyString => [EmptyString]
  | String a s' =>
      if Ascii.eqb a sep then EmptyString :: split sep s'
      else match split sep s' with
           | [] => [String a EmptyString]
           | field :: fields => String a field :: fields
           end
  end.

(** Substring test, [k in s] on strings. *)
Fixpoint is_prefix (k s : string) : bool :=
  match k, s with
  | EmptyString, _ => true
  | String a k', String b s' => Ascii.eqb a b && is_prefix k' s'
  | String _ _, EmptyString => false
  end.

Fixpoint is_substring (k s : string) : bool :=
  is_prefix k s ||
  match s with
  | EmptyString => false
  | String _ s' => is_substring k s'
  end.

(** ** [int(s)] and [str(n)] *)

(** The characters that [int] strips around the literal of an ASCII
    string: tab to carriage return, and space. *)
Definition is_space (a : ascii) : bool :=
  let n := nat_of_ascii a in
  ((9 <=? n) && (n <=? 13) || (n =? 32))%nat.

Fixpoint lstrip (s : string) : string :=
  match s with
  | EmptyString => EmptyString
  | String a s' => if is_space a then lstrip s' else s
  end.

Fixpoint rstrip (s : string) : string :=
  match s with
  | EmptyString => EmptyString
  | String a s' =>
      match rstrip s' with
      | EmptyString => if is_space a then EmptyString else String a EmptyString
      | r => String a r
      end
  end.

Definition digit_val (a : ascii) : option Z :=
  let n := nat_of_ascii a in
  if ((48 <=? n) && (n <=? 57))%nat then Some (Z.of_nat n - 48) else None.

(** Decimal digits, a single underscore being allowed between two
    digits. [after_digit] tells whether the previous character was one. *)
Fixpoint int_digits (s : string) (acc : Z) (after_digit : bool) : option Z :=
  match s with
  | EmptyString => if after_digit then Some acc else None
  | String a s' =>
      if Ascii.eqb a "_"%char
      then (if after_digit then int_digits s' acc false else None)
      else match digit_val a with
           | Some d => int_digits s' (10 * acc + d) true
           | None => None
           end
  end.

(** An integer literal in base ten: surrounding white space, an optional
    sign, then digits. *)
Definition int_literal (s : string) : option Z :=
  match rstrip (lstrip s) with
  | String "+" ds => int_digits ds 0 false
  | String "-" ds => Z.opp <$> int_digits ds 0 false
  | ds => int_digits ds 0 false
  end.

(** [int(s)] for a string of ASCII characters: anything but a literal is
    a [ValueError].  Beyond ASCII Python also takes the decimal digits and
    the white space of Unicode, which are read here as no literal; the
    interpreter's optional cap on the number of digits is not modelled. *)
Definition int (s : string) : result Z :=
  match int_literal s with
  | Some n => Return n
  | None => Raise ValueError
  end.

(** [str(n)], which is what [format] does for an integer under ["{}"]. *)
Definition str (n : Z) : string := NilZero.string_of_int (Z.to_int n).

(** ** Hashable values and JSON *)

(** What a Python set may hold among the values a JSON document produces;
    [True] and [False] hash and compare as [1] and [0]. *)
Inductive hashable : Set :=
| HStr (s : string)
| HInt (n : Z)
| HNone.

Global Instance hashable_eq_dec : EqDecision hashable.
Proof. solve_decision. Defined.

Definition hashable_to_sum (h : hashable) : string + (Z + unit) :=
  match h with
  | HStr s => inl s
  | HInt n => inr (inl n)
  | HNone => inr (inr tt)
  end.

Definition hashable_of_sum (x : string + (Z + unit)) : hashable :=
  match x with
  | inl s => HStr s
  | inr (inl n) => HInt n
  | inr (inr _) => HNone
  end.

Global Instance hashable_countable : Countable hashable.
Proof.
  refine (inj_countable' hashable_to_sum hashable_of_sum _).
  intros []; reflexivity.
Defined.

(** A parsed JSON document (numbers being integers, as in solc's AST). *)
#[warnings="-register-all"]
Inductive json : Type :=
| JNull
| JBool (b : bool)
| JNum (n : Z)
| JStr (s : string)
| JArr (l : list json)
| JObj (m : gmap string json).

(** [j[k]] for a string key [k]: only an object can be subscripted by a
    string, and a missing key is a [KeyError]. *)
Definition getitem (j : json) (k : string) : result json :=
  match j with
  | JObj m => match m !! k with
              | Some v => Return v
              | None => Raise KeyError
              end
  | _ => Raise TypeError
  end.

(** What [for child in j] runs through: the elements of a list, the keys
    of an object, the characters of a string (here its bytes: each is a
    string again, which is all the caller can observe). *)
Definition iterate (j : json) : result (list json) :=
  match j with
  | JArr l => Return l
  | JObj m => Return ((λ kv, JStr kv.1) <$> map_to_list m)
  | JStr s => Return ((λ a, JStr (String a EmptyString)) <$> list_ascii_of_string s)
  | _ => Raise TypeError
  end.

Definition is_str (k : string) (j : json) : bool :=
  match j with
  | JStr s => bool_decide (s = k)
  | _ => false
  end.

(** [k in j] for a string [k]: a key of an object, an element of a list,
    a substring of a string. *)
Definition contains (k : string) (j : json) : result bool :=
  match j with
  | JObj m => Return (bool_decide (is_Some (m !! k)))
  | JArr l => Return (existsb (is_str k) l)
  | JStr s => Return (is_substring k s)
  | _ => Raise TypeError
  end.

(** The key under which a value enters a set; lists and objects are
    unhashable. *)
Definition hash_key (j : json) : result hashable :=
  match j with
  | JStr s => Return (HStr s)
  | JNum n => Return (HInt n)
  | JBool b => Return (HInt (if b then 1 else 0))
  | JNull => Return HNone
  | JArr _ | JObj _ => Raise TypeError
  end.

(** ** [get_full_contract_sources] *)

(** One pass of [for child in ast["children"]] over the set built so far. *)
Definition add_contract_source (source_map : gset hashable) (child : json)
  : result (gset hashable) :=
  do attributes <- getitem child "attributes";
  do has_kind <- contains "contractKind" attributes;
  if has_kind : bool then
    do src <- getitem child "src";
    do key <- hash_key src;
    Return ({[ key ]} ∪ source_map)
  else Return source_map.

Fixpoint for_children (source_map : gset hashable) (children : list json)
  : result (gset hashable) :=
  match children with
  | [] => Return source_map
  | child :: rest =>
      do source_map' <- add_contract_source source_map child;
      for_children source_map' rest
  end.

Definition get_full_contract_sources (ast : json) : result (gset hashable) :=
  do children <- getitem ast "children";
  do items <- iterate children;
  for_children ∅ items.

(** ** The classes of the module *)

Module SourceMapping.
Record t : Type := mk {
  solidity_file_idx : Z;
  offset : Z;
  length : Z;
  lineno : option Z;
  solc_mapping : string
}.
End SourceMapping.

Record SolidityFile : Type := {
  filename : string;
  data : string;
  full_contract_source : gset hashable
}.

Module SourceCodeInfo.
Record t : Type := mk {
  filename : string;
  lineno : option Z;
  code : string;
  solc_mapping : string
}.
End SourceCodeInfo.

(** The instruction type, the disassembly and the two helpers below live
    outside this module ([EVMContract], [helper.get_instruction_index],
    the codec of [bytes.decode]); the development is parametric in them. *)
Section Contract.

Context {Instr : Type}.

Record Disassembly : Type := { instruction_list : list Instr }.

(** [helper.get_instruction_index(instruction_list, address)]: raises,
    or returns [None] or an index. *)
Variable get_instruction_index : list Instr → Z → result (option Z).

(** [bytes.decode("utf-8", errors="ignore")]. *)
Variable decode_ignore : string → string.

Record SolidityContract : Type := {
  solidity_files : list SolidityFile;
  mappings : list SourceMapping.t;
  constructor_mappings : list SourceMapping.t;
  disassembly : Disassembly;
  creation_disassembly : Disassembly
}.

(** [mappings.append(m)] where [mappings] aliases one of the two lists
    of [self]. *)
Definition append_mapping (constructor : bool) (self : SolidityContract)
    (m : SourceMapping.t) : SolidityContract :=
  if constructor then
    {| solidity_files := solidity_files self;
       mappings := mappings self;
       constructor_mappings := constructor_mappings self ++ [m];
       disassembly := disassembly self;
       creation_disassembly := creation_disassembly self |}
  else
    {| solidity_files := solidity_files self;
       mappings := mappings self ++ [m];
       constructor_mappings := constructor_mappings self;
       disassembly := disassembly self;
       creation_disassembly := creation_disassembly self |}.

Definition selected_mappings (constructor : bool) (self : SolidityContract)
  : list SourceMapping.t :=
  if constructor then constructor_mappings self else mappings self.

(** ** [_is_autogenerated_code] *)

Definition format_src (offset length file_index : Z) : string :=
  str offset +:+ ":" +:+ str length +:+ ":" +:+ str file_index.

Definition _is_autogenerated_code (self : SolidityContract)
    (offset length file_index : Z) : result bool :=
  if file_index =? -1 then Return true
  else
    do file <- py_index (solidity_files self) file_index;
    if bool_decide (HStr (format_src offset length file_index)
                      ∈ full_contract_source file)
    then Return true
    else Return false.

(** ** [_get_solc_mappings] *)

(** The local variables that live across the iterations of the loop;
    [offset], [length] and [idx] are unbound until first assigned. *)
Record frame : Type := {
  v_offset : option Z;
  v_length : option Z;
  v_idx : option Z;
  v_prev_item : string
}.

Definition initial_frame : frame :=
  {| v_offset := None; v_length := None; v_idx := None; v_prev_item := "" |}.

(** [if len(mapping) > k and len(mapping[k]) > 0: v = int(mapping[k])] *)
Definition assign_field (mapping : list string) (k : nat) (v : option Z)
  : result (option Z) :=
  match mapping !! k with
  | Some field =>
      if (0 <? String.length field)%nat
      then do n <- int field; Return (Some n)
      else Return v
  | None => Return v
  end.

(** Reading a local variable. *)
Definition read_local (v : option Z) : result Z :=
  match v with
  | Some n => Return n
  | None => Raise UnboundLocalError
  end.

(** [item = prev_item] when [item == ""]. *)
Definition effective_item (fr : frame) (item : string) : string :=
  if bool_decide (item = "") then v_prev_item fr else item.

(** The three conditional assignments, in program order. *)
Definition assign_fields (fr : frame) (mapping : list string)
  : result (option Z * option Z * option Z) :=
  do o <- assign_field mapping 0 (v_offset fr);
  do l <- assign_field mapping 1 (v_length fr);
  do i <- assign_field mapping 2 (v_idx fr);
  Return (o, l, i).

(** [self.solidity_files[idx].data.encode("utf-8")[0:offset].count("\n") + 1] *)
Definition line_of (self : SolidityContract) (idx offset : Z) : result Z :=
  do file <- py_index (solidity_files self) idx;
  Return (count (py_slice (data file) 0 offset) "010"%char + 1).

(** One iteration: the frame for the next one and the entry appended. *)
Definition loop_body (self : SolidityContract) (fr : frame) (item0 : string)
  : result (frame * SourceMapping.t) :=
  let item := effective_item fr item0 in
  let mapping := split ":" item in
  do vars <- assign_fields fr mapping;
  let '(o, l, i) := vars in
  do offset <- read_local o;
  do length <- read_local l;
  do idx <- read_local i;
  do autogenerated <- _is_autogenerated_code self offset length idx;
  do lineno <- (if autogenerated : bool then Return None
                else do n <- line_of self idx offset; Return (Some n));
  Return ({| v_offset := o; v_length := l; v_idx := i; v_prev_item := item |},
          SourceMapping.mk idx offset length lineno item).

(** [for item in srcmap]: the object after the loop, and the frame it
    ends in or the exception that cut it short. *)
Fixpoint for_items (constructor : bool) (self : SolidityContract) (fr : frame)
    (srcmap : list string) : SolidityContract * result frame :=
  match srcmap with
  | [] => (self, Return fr)
  | item :: rest =>
      match loop_body self fr item with
      | Return (fr', m) =>
          for_items constructor (append_mapping constructor self m) fr' rest
      | Raise e => (self, Raise e)
      end
  end.

Definition _get_solc_mappings (self : SolidityContract) (srcmap : list string)
    (constructor : bool) : SolidityContract * result unit :=
  let '(self', r) := for_items constructor self initial_frame srcmap in
  (self', do _ <- r; Return tt).

(** ** [get_source_info] *)

(** [mappings[index]] where [index] may be [None]. *)
Definition subscript {A : Type} (l : list A) (index : option Z) : result A :=
  match index with
  | Some i => py_index l i
  | None => Raise TypeError
  end.

Definition get_source_info (self : SolidityContract) (address : Z)
    (constructor : bool) : result SourceCodeInfo.t :=
  let disassembly :=
    if constructor then creation_disassembly self else disassembly self in
  let mappings :=
    if constructor then constructor_mappings self else mappings self in
  do index <- get_instruction_index (instruction_list disassembly) address;
  do m <- subscript mappings index;
  do solidity_file <- py_index (solidity_files self)
                        (SourceMapping.solidity_file_idx m);
  let filename := filename solidity_file in
  let offset := SourceMapping.offset m in
  let length := SourceMapping.length m in
  let code :=
    decode_ignore (py_slice (data solidity_file) offset (offset + length)) in
  let lineno := SourceMapping.lineno m in
  Return (SourceCodeInfo.mk filename lineno code (SourceMapping.solc_mapping m)).

End Contract.

Arguments SolidityContract : clear implicits.
Arguments Disassembly : clear implicits.

(** ** Decoding a raw map, as [__init__] does it

    [srcmap = contract["srcmap-runtime"].split(";")], then
    [self.mappings = []] and [self._get_solc_mappings(srcmap)]. *)

Definition empty_disassembly : Disassembly unit := {| instruction_list := [] |}.

Definition new_contract (files : list SolidityFile) : SolidityContract unit :=
  {| solidity_files := files;
     mappings := [];
     constructor_mappings := [];
     disassembly := empty_disassembly;
     creation_disassembly := empty_disassembly |}.

Definition decode (files : list SolidityFile) (raw : string)
  : list SourceMapping.t * result unit :=
  let '(self, r) := _get_solc_mappings (new_contract files) (split ";" raw) false in
  (mappings self, r).

Definition triple (m : SourceMapping.t) : Z * Z * Z :=
  (SourceMapping.offset m, SourceMapping.length m, SourceMapping.solidity_file_idx m).

(** ** Auxiliary notions used by the statements *)

(** The entries the loop appends, and how it ends, as a function of the
    source files alone. *)
Fixpoint entries_from {Instr : Type} (self : SolidityContract Instr) (fr : frame)
    (srcmap : list string) : list SourceMapping.t * result frame :=
  match srcmap with
  | [] => ([], Return fr)
  | item :: rest =>
      match loop_body self fr item with
      | Return (fr', m) =>
          let '(ms, r) := entries_from self fr' rest in (m :: ms, r)
      | Raise e => ([], Raise e)
      end
  end.

(** The most recent non-empty token of a list of tokens, [""] without one. *)
Definition last_nonempty (tokens : list string) : string :=
  default "" (last (filter (λ t, t ≠ "") tokens)).

(** The rule of one field position [k] of a token split into [mapping]:
    a field that is present and not empty overwrites the running value with
    its integer, an absent or empty one keeps the value of the iteration
    before. *)
Definition overwrites_or_keeps (mapping : list string) (k : nat)
    (before after : option Z) : Prop :=
  (∃ field n, mapping !! k = Some field ∧ field ≠ "" ∧
              int field = Return n ∧ after = Some n) ∨
  ((mapping !! k = None ∨ mapping !! k = Some "") ∧ after = before).

(** The number of newline bytes among the first [offset] bytes of a
    file, plus one. *)
Definition line_number_at (file : SolidityFile) (offset : Z) : Z :=
  count (substring 0 (Z.to_nat offset) (data file)) "010"%char + 1.

Definition no_empty_token (srcmap : list string) : bool :=
  forallb (λ item, negb (String.eqb item "")) srcmap.

(** A token that spells out its first three fields. *)
Definition has_field (mapping : list string) (k : nat) : bool :=
  match mapping !! k with
  | Some field => (0 <? String.length field)%nat
  | None => false
  end.

Definition spells_three_fields (item : string) : bool :=
  let mapping := split ":" item in
  has_field mapping 0 && has_field mapping 1 && has_field mapping 2.

(** Each token parsed on its own: the loop body run from the initial
    frame on every token, the entries collected until one raises. *)
Fixpoint parse_each {Instr : Type} (self : SolidityContract Instr)
    (srcmap : list string) : list SourceMapping.t * result unit :=
  match srcmap with
  | [] => ([], Return tt)
  | item :: rest =>
      match loop_body self initial_frame item with
      | Return (_, m) => let '(ms, r) := parse_each self rest in (m :: ms, r)
      | Raise e => ([], Raise e)
      end
  end.

(** The errors the decoder raises on a malformed map: a local variable
    read before any token assigned it, or a field that is not an integer. *)
Definition DecodeError (e : exn) : Prop :=
  e = UnboundLocalError ∨ e = ValueError.

(** Whether an entry was classified as compiler generated. *)
Definition classified {Instr : Type} (self : SolidityContract Instr)
    (m : SourceMapping.t) : result bool :=
  _is_autogenerated_code self (SourceMapping.offset m) (SourceMapping.length m)
    (SourceMapping.solidity_file_idx m).

(** The entry [get_source_info] selects: [mappings[index]]. *)
Definition selected_entry {Instr : Type}
    (get_instruction_index : list Instr → Z → result (option Z))
    (self : SolidityContract Instr) (address : Z) (constructor : bool)
  : result SourceMapping.t :=
  do index <- get_instruction_index
                (instruction_list
                   (if constructor then creation_disassembly self
                    else disassembly self)) address;
  subscript (selected_mappings constructor self) index.

(** A declaration of the AST as the extraction expects it: an object whose
    [attributes] support [in], carrying a string [src] when it is marked
    with a contract kind. *)
Definition well_formed_declaration (child : json) : Prop :=
  ∃ attributes has_kind,
    getitem child "attributes" = Return attributes ∧
    contains "contractKind" attributes = Return has_kind ∧
    (has_kind = true → ∃ s, getitem child "src" = Return (JStr s)).

Definition lacks_attributes (child : json) : Prop :=
  ∃ m, child = JObj m ∧ m !! "attributes" = None.

Definition lacks_src (child : json) : Prop :=
  ∃ m attributes,
    child = JObj m ∧ m !! "attributes" = Some attributes ∧
    contains "contractKind" attributes = Return true ∧ m !! "src" = None.

(** A declaration whose [attributes] is no container: [in] is not defined
    on [None], a boolean or a number. *)
Definition attributes_without_in (child : json) : Prop :=
  ∃ m attributes,
    child = JObj m ∧ m !! "attributes" = Some attributes ∧
    (attributes = JNull ∨ (∃ b, attributes = JBool b) ∨
     (∃ n, attributes = JNum n)).

(** An object, a list or a string. *)
Definition is_container (j : json) : Prop :=
  (∃ m, j = JObj m) ∨ (∃ l, j = JArr l) ∨ (∃ s, j = JStr s).

(** The [src] of a declaration marked with a contract kind. *)
Definition contract_src (child : json) : option string :=
  match getitem child "attributes" with
  | Return attributes =>
      match contains "contractKind" attributes, getitem child "src" with
      | Return true, Return (JStr s) => Some s
      | _, _ => None
      end
  | Raise _ => None
  end.

(** ** Example data *)

Definition file_a : SolidityFile :=
  {| filename := "a.sol";
     data := "pragma solidity ^0.8.0;" +:+ String "010" "contract C { function f() public {} }";
     full_contract_source := {[ HStr "24:37:0" ]} |}.

Definition file_b : SolidityFile :=
  {| filename := "b.sol";
     data := "a" +:+ String "010" "b";
     full_contract_source := ∅ |}.

Definition two_files : list SolidityFile := [file_a; file_b].

Definition one_instruction : Disassembly unit := {| instruction_list := [tt] |}.

(** A lookup that finds every address at index 0. *)
Definition index_zero (instruction_list : list unit) (address : Z)
  : result (option Z) := Return (Some 0).

Definition internal_entry : SourceMapping.t :=
  SourceMapping.mk (-1) 0 6 None "0:6:-1".

Definition contract_with_internal_entry : SolidityContract unit :=
  {| solidity_files := two_files;
     mappings := [internal_entry];
     constructor_mappings := [];
     disassembly := one_instruction;
     creation_disassembly := empty_disassembly |}.

Definition pragma_node : json :=
  JObj {[ "name" := JStr "PragmaDirective"; "src" := JStr "0:23:0" ]}.

Definition contract_node : json :=
  JObj {[ "attributes" := JObj {[ "contractKind" := JStr "contract" ]};
          "name" := JStr "ContractDefinition";
          "src" := JStr "24:37:0" ]}.

Definition import_node : json :=
  JObj {[ "attributes" := JObj {[ "file" := JStr "b.sol" ]};
          "name" := JStr "ImportDirective" ]}.

Definition ast_with_bare_pragma : json :=
  JObj {[ "children" := JArr [contract_node; pragma_node] ]}.

Definition null_attributes_node : json :=
  JObj {[ "attributes" := JNull; "src" := JStr "0:23:0" ]}.

Definition ast_with_null_attributes : json :=
  JObj {[ "children" := JArr [contract_node; null_attributes_node] ]}.

Definition ast_well_formed : json :=
  JObj {[ "children" := JArr [import_node; contract_node] ]}.

(** A contract whose runtime map is the single token ["24:10:0"], decoded
    over [two_files]. *)
Definition contract_of_one_token : SolidityContract unit :=
  {| solidity_files := two_files;
     mappings := [SourceMapping.mk 0 24 10 (Some 2) "24:10:0"];
     constructor_mappings := [];
     disassembly := one_instruction;
     creation_disassembly := empty_disassembly |}.

(** A declaration marked with a contract kind whose [src] enters the set
    under the key [h]. *)
Definition contributes (child : json) (h : hashable) : Prop :=
  ∃ attributes src,
    getitem child "attributes" = Return attributes ∧
    contains "contractKind" attributes = Return true ∧
    getitem child "src" = Return src ∧
    hash_key src = Return h.

(** ** [SolidityContract.__init__], from the choice of the contract on

    The call of the compiler and the reading of the source files (lines 74
    to 86) are input and output: [data] is the document [get_solc_json]
    returned and [solidity_files] the files as loaded. What follows is
    lines 88 to 132. *)

(** [__init__] raises more than the built-in exceptions above. *)
Inductive init_exn : Set :=
| Builtin (e : exn)
| AttributeError
| NoContractFoundError.

Inductive outcome (A : Type) : Type :=
| Done (a : A)
| Failed (e : init_exn).
Arguments Done {A} a.
Arguments Failed {A} e.

Definition outcome_bind {A B : Type} (m : outcome A) (k : A → outcome B)
  : outcome B :=
  match m with
  | Done a => k a
  | Failed e => Failed e
  end.

Notation "'run' x <- m ; k" := (outcome_bind m (fun x => k))
  (at level 10, x name, m at level 100, k at level 200,
   format "'[v' 'run'  x  <-  m ; '/' k ']'").

Definition lift {A : Type} (r : result A) : outcome A :=
  match r with
  | Return a => Done a
  | Raise e => Failed (Builtin e)
  end.

(** [j.items()]: only a dictionary has the method. The order of the pairs
    does not matter here, [sorted] being applied to them. *)
Definition dict_items (j : json) : outcome (list (string * json)) :=
  match j with
  | JObj m => Done (map_to_list m)
  | _ => Failed AttributeError
  end.

(** [sorted] on the items of a dictionary: the keys being distinct, the
    pairs are compared by their keys alone, as strings (byte order on the
    UTF-8 encoding is the order of the code points). *)
Fixpoint insert_sorted (x : string * json) (l : list (string * json))
  : list (string * json) :=
  match l with
  | [] => [x]
  | y :: l' =>
      if String.leb x.1 y.1 then x :: y :: l' else y :: insert_sorted x l'
  end.

Definition sorted (l : list (string * json)) : list (string * json) :=
  foldr insert_sorted [] l.

(** [sorted(data["contracts"].items())] *)
Definition sorted_contracts (data : json) : outcome (list (string * json)) :=
  run contracts <- lift (getitem data "contracts");
  run pairs <- dict_items contracts;
  Done (sorted pairs).

(** [filename, name = key.split(":")]: unpacking anything but two parts
    is a [ValueError]. *)
Definition unpack_key (key : string) : outcome (string * string) :=
  match split ":" key with
  | [filename; name] => Done (filename, name)
  | _ => Failed (Builtin ValueError)
  end.

(** The truth value of [len(j)]. *)
Definition has_len (j : json) : result bool :=
  match j with
  | JStr s => Return (negb (String.eqb s ""))
  | JArr l => Return (negb (bool_decide (l = [])))
  | JObj m => Return (negb (bool_decide (m = ∅)))
  | _ => Raise TypeError
  end.

(** The condition [len(contract["bin-runtime"])]. *)
Definition has_runtime_code (contract : json) : outcome bool :=
  run code <- lift (getitem contract "bin-runtime");
  lift (has_len code).

(** [j.split(";")]: only a string has the method. *)
Definition split_srcmap (j : json) : outcome (list string) :=
  match j with
  | JStr s => Done (split ";" s)
  | _ => Failed AttributeError
  end.

(** What the loops assign once a contract matches. *)
Module Selection.
Record t : Type := mk {
  code : json;
  creation_code : json;
  srcmap : list string;
  srcmap_constructor : list string
}.
End Selection.

Definition contract_fields (contract : json) : outcome Selection.t :=
  run code <- lift (getitem contract "bin-runtime");
  run creation_code <- lift (getitem contract "bin");
  run runtime_map <- lift (getitem contract "srcmap-runtime");
  run srcmap <- split_srcmap runtime_map;
  run constructor_map <- lift (getitem contract "srcmap");
  run srcmap_constructor <- split_srcmap constructor_map;
  Done (Selection.mk code creation_code srcmap srcmap_constructor).

(** The loop taken when a name is given; it ends at the first match. *)
Fixpoint for_named (input_file name : string) (pairs : list (string * json))
  : outcome (option Selection.t) :=
  match pairs with
  | [] => Done None
  | (key, contract) :: rest =>
      run parts <- unpack_key key;
      let '(filename, _name) := parts in
      if bool_decide (filename = input_file) && bool_decide (name = _name)
      then
        run nonempty <- has_runtime_code contract;
        if nonempty : bool then
          run fields <- contract_fields contract; Done (Some fields)
        else for_named input_file name rest
      else for_named input_file name rest
  end.

(** The loop taken without a name: it runs to the end, every key rebinds
    [name] and every match overwrites the fields. *)
Fixpoint for_any (input_file : string) (pairs : list (string * json))
    (found : option Selection.t) (name : option string)
  : outcome (option Selection.t * option string) :=
  match pairs with
  | [] => Done (found, name)
  | (key, contract) :: rest =>
      run parts <- unpack_key key;
      let '(filename, name') := parts in
      if bool_decide (filename = input_file) then
        run nonempty <- has_runtime_code contract;
        if nonempty : bool then
          run fields <- contract_fields contract;
          for_any input_file rest (Some fields) (Some name')
        else for_any input_file rest found (Some name')
      else for_any input_file rest found (Some name')
  end.

(** [if name:] on [None] or a string. *)
Definition truth (name : option string) : bool :=
  match name with
  | Some s => negb (String.eqb s "")
  | None => false
  end.

(** Lines 88 to 123: the fields of the chosen contract and the name the
    contract is given, or [NoContractFoundError]. *)
Definition select_contract (data : json) (input_file : string)
    (name : option string) : outcome (Selection.t * option string) :=
  if truth name then
    run pairs <- sorted_contracts data;
    run found <- for_named input_file (default "" name) pairs;
    match found with
    | Some fields => Done (fields, name)
    | None => Failed NoContractFoundError
    end
  else
    run pairs <- sorted_contracts data;
    run state <- for_any input_file pairs None name;
    match state.1 with
    | Some fields => Done (fields, state.2)
    | None => Failed NoContractFoundError
    end.

Section Init.

Context {Instr : Type}.

(** [super().__init__(code, creation_code, name=name)], which is
    [EVMContract.__init__] and builds the two disassemblies. *)
Variable evm_init :
  json → json → option string
  → outcome (Disassembly Instr * Disassembly Instr).

(** Lines 88 to 132 of [__init__]. *)
Definition init_contract (files : list SolidityFile) (data : json)
    (input_file : string) (name : option string)
  : outcome (SolidityContract Instr) :=
  run chosen <- select_contract data input_file name;
  let '(fields, name) := chosen in
  let self : SolidityContract Instr :=
    {| solidity_files := files;
       mappings := [];
       constructor_mappings := [];
       disassembly := {| instruction_list := [] |};
       creation_disassembly := {| instruction_list := [] |} |} in
  let '(self, r) := _get_solc_mappings self (Selection.srcmap fields) false in
  run _ <- lift r;
  let '(self, r) :=
    _get_solc_mappings self (Selection.srcmap_constructor fields) true in
  run _ <- lift r;
  run disassemblies <-
    evm_init (Selection.code fields) (Selection.creation_code fields) name;
  Done {| solidity_files := solidity_files self;
          mappings := mappings self;
          constructor_mappings := constructor_mappings self;
          disassembly := disassemblies.1;
          creation_disassembly := disassemblies.2 |}.

End Init.

(** The key of a contract named [name] of the file [input_file]. *)
Definition contract_key (input_file name : string) : string :=
  input_file +:+ ":" +:+ name.

(** A key of the file [input_file] whose contract has runtime code. *)
Definition matches (input_file key : string) (contract : json) : Prop :=
  (∃ name, split ":" key = [input_file; name]) ∧
  has_runtime_code contract = Done true.

Definition two_part_keys (contracts : gmap string json) : Prop :=
  ∀ key contract, contracts !! key = Some contract →
    ∃ filename name, split ":" key = [filename; name].

(** Example: two contracts of [a.sol] and one of [b.sol]. *)
Definition compiled (runtime_code runtime_map : string) : json :=
  JObj {[ "bin" := JStr "6080"; "bin-runtime" := JStr runtime_code;
          "srcmap" := JStr "0:6:0"; "srcmap-runtime" := JStr runtime_map ]}.

Definition compiled_contracts : gmap string json :=
  {[ "a.sol:C" := compiled "60" "24:10:0";
     "a.sol:B" := compiled "6001" "24:37:0;:10";
     "a.sol:I" := compiled "" "";
     "b.sol:Z" := compiled "00" "0:1:1" ]}.

Definition solc_output : json :=
  JObj {[ "contracts" := JObj compiled_contracts ]}.

(** A compiler output in which the one contract of [a.sol] has no runtime
    code. *)
Definition contracts_without_code : gmap string json :=
  {[ "a.sol:I" := compiled "" ""; "b.sol:Z" := compiled "00" "0:1:1" ]}.

Definition solc_output_without_code : json :=
  JObj {[ "contracts" := JObj contracts_without_code ]}.

(** A compiler output whose only contract has code but an empty runtime
    map. *)
Definition solc_output_without_map : json :=
  JObj {[ "contracts" := JObj {[ "a.sol:C" := compiled "60" "" ]} ]}.

(** An [EVMContract.__init__] that disassembles nothing. *)
Definition evm_init_empty (code creation_code : json) (name : option string)
  : outcome (Disassembly unit * Disassembly unit) :=
  Done (empty_disassembly, empty_disassembly).

(** The last non-empty field at position [k] among a list of tokens. *)
Definition latest_field (k : nat) (tokens : list string) : option string :=
  last (filter (λ field, field ≠ "")
          (omap (λ token, split ":" token !! k) tokens)).

(** A running value agrees with a list of tokens at position [k]: it is the
    integer of the latest non-empty field, unbound when there is none. *)
Definition field_value (k : nat) (tokens : list string) (v : option Z) : Prop :=
  match latest_field k tokens with
  | Some field => ∃ n, int field = Return n ∧ v = Some n
  | None => v = None
  end.

(** A frame whose running values are those the token it keeps leaves
    behind: assigning from that token again changes none of them. *)
Definition settled (fr : frame) : Prop :=
  assign_fields fr (split ":" (v_prev_item fr))
  = Return (v_offset fr, v_length fr, v_idx fr).

(** * Properties *)

(** ** Python sequences *)

Lemma split_not_nil sep s : split sep s ≠ [].
Proof.
  destruct s as [|a s]; simpl; [discriminate|].
  destruct (Ascii.eqb a sep); [discriminate|].
  destruct (split sep s); discriminate.
Qed.

Lemma py_index_raises {A : Type} (l : list A) i e :
  py_index l i = Raise e → e = IndexError.
Proof.
  unfold py_index. repeat case_match; congruence.
Qed.

Lemma py_index_Return {A : Type} (l : list A) i x :
  py_index l i = Return x →
  - Z.of_nat (length l) ≤ i < Z.of_nat (length l) ∧ x ∈ l.
Proof.
  unfold py_index.
  destruct (i <? 0) eqn:Hi;
    (destruct (_ || _) eqn:Hj; [discriminate|]);
    (destruct (l !! _) as [y|] eqn:Hl; [|discriminate]);
    intros [= ->]; (split; [lia | by eapply list_elem_of_lookup_2]).
Qed.

Lemma py_index_in_range {A : Type} (l : list A) i :
  - Z.of_nat (length l) ≤ i < Z.of_nat (length l) → ∃ x, py_index l i = Return x.
Proof.
  intros Hi. unfold py_index.
  set (j := if i <? 0 then i + Z.of_nat (length l) else i).
  assert (0 ≤ j < Z.of_nat (length l)) as Hj
    by (subst j; destruct (i <? 0) eqn:?; lia).
  replace ((j <? 0) || (Z.of_nat (length l) <=? j)) with false by lia.
  destruct (lookup_lt_is_Some_2 l (Z.to_nat j)) as [x Hx]; [lia|].
  rewrite Hx. by exists x.
Qed.

Lemma py_index_too_large {A : Type} (l : list A) i :
  Z.of_nat (length l) ≤ i → py_index l i = Raise IndexError.
Proof.
  intros Hi. unfold py_index.
  replace (i <? 0) with false by lia.
  by replace ((i <? 0) || (Z.of_nat (length l) <=? i)) with true by lia.
Qed.

Lemma py_index_nat {A : Type} (l : list A) (k : nat) x :
  l !! k = Some x → py_index l (Z.of_nat k) = Return x.
Proof.
  intros Hk. pose proof (lookup_lt_Some _ _ _ Hk) as Hlt. unfold py_index.
  replace (Z.of_nat k <? 0) with false by lia.
  replace ((Z.of_nat k <? 0) || (Z.of_nat (length l) <=? Z.of_nat k))
    with false by lia.
  by rewrite Nat2Z.id, Hk.
Qed.

Lemma py_index_minus_one {A : Type} (l : list A) x :
  last l = Some x → py_index l (-1) = Return x.
Proof.
  intros Hl. unfold py_index. rewrite last_lookup in Hl.
  assert (length l ≠ 0%nat) by (destruct l; [discriminate | simpl; lia]).
  replace (-1 <? 0) with true by lia.
  replace ((-1 + Z.of_nat (length l) <? 0)
           || (Z.of_nat (length l) <=? -1 + Z.of_nat (length l)))
    with false by lia.
  replace (Z.to_nat (-1 + Z.of_nat (length l))) with (pred (length l)) by lia.
  by rewrite Hl.
Qed.

Lemma count_nonneg s c : 0 ≤ count s c.
Proof. induction s as [|a s IH]; simpl; [lia|]. destruct (Ascii.eqb a c); lia. Qed.

Lemma clamp_index_nonneg n i : 0 ≤ n → 0 ≤ i → clamp_index n i = Z.min i n.
Proof. intros ??. unfold clamp_index. by replace (i <? 0) with false by lia. Qed.

Lemma substring_take n s :
  substring 0 n s = string_of_list_ascii (take n (list_ascii_of_string s)).
Proof.
  revert n. induction s as [|a s IH]; intros [|n]; simpl; try done.
  by rewrite IH.
Qed.

(** For a bound that is not negative the slice [s[0:offset]] is the prefix
    of [offset] bytes (all of [s] when it is shorter). *)
Lemma py_slice_prefix s offset :
  0 ≤ offset → py_slice s 0 offset = substring 0 (Z.to_nat offset) s.
Proof.
  intros Ho. unfold py_slice, list_slice. rewrite substring_take.
  set (l := list_ascii_of_string s).
  rewrite !clamp_index_nonneg by lia.
  replace (Z.to_nat (Z.min 0 (Z.of_nat (length l)))) with 0%nat by lia.
  rewrite drop_0. f_equal.
  destruct (Z.le_gt_cases offset (Z.of_nat (length l))).
  - f_equal. lia.
  - rewrite !take_ge; [done | lia | lia].
Qed.

Lemma count_substring_mono s c (n1 n2 : nat) :
  (n1 ≤ n2)%nat → count (substring 0 n1 s) c ≤ count (substring 0 n2 s) c.
Proof.
  revert n1 n2. induction s as [|a s IH]; intros [|n1] [|n2] Hn; simpl;
    try lia.
  - pose proof (count_nonneg (substring 0 n2 s) c). destruct (Ascii.eqb a c); lia.
  - specialize (IH n1 n2 ltac:(lia)). lia.
Qed.

(** ** The loop of the decoder *)

Section Decoder.

Context {Instr : Type}.
Implicit Types (self : SolidityContract Instr) (fr : frame).
Implicit Types (m : SourceMapping.t) (srcmap : list string).

Lemma loop_body_files self1 self2 fr item :
  solidity_files self1 = solidity_files self2 →
  loop_body self1 fr item = loop_body self2 fr item.
Proof.
  intros Hf. unfold loop_body, _is_autogenerated_code, line_of.
  by rewrite Hf.
Qed.

Lemma entries_from_files self1 self2 fr srcmap :
  solidity_files self1 = solidity_files self2 →
  entries_from self1 fr srcmap = entries_from self2 fr srcmap.
Proof.
  intros Hf. revert fr. induction srcmap as [|item rest IH]; intros fr;
    simpl; [done|].
  rewrite (loop_body_files self1 self2) by done.
  destruct (loop_body self2 fr item) as [[fr' m]|e]; [|done].
  by rewrite IH.
Qed.

Lemma append_mapping_files c self m :
  solidity_files (append_mapping c self m) = solidity_files self.
Proof. by destruct c. Qed.

(** The loop only ever appends to the list its flag selects, and what it
    appends is [entries_from]. *)
Lemma for_items_spec c self fr srcmap :
  ∃ self',
    for_items c self fr srcmap = (self', (entries_from self fr srcmap).2) ∧
    solidity_files self' = solidity_files self ∧
    selected_mappings c self'
      = selected_mappings c self ++ (entries_from self fr srcmap).1 ∧
    selected_mappings (negb c) self' = selected_mappings (negb c) self ∧
    disassembly self' = disassembly self ∧
    creation_disassembly self' = creation_disassembly self.
Proof.
  revert self fr. induction srcmap as [|item rest IH]; intros self fr; simpl.
  - exists self. by rewrite app_nil_r.
  - destruct (loop_body self fr item) as [[fr' m]|e] eqn:Hb; simpl.
    + destruct (IH (append_mapping c self m) fr')
        as (self' & Hrun & Hf & Hsel & Hoth & Hd & Hcd).
      rewrite (entries_from_files _ self) in Hrun, Hsel
        by apply append_mapping_files.
      destruct (entries_from self fr' rest) as [ms r] eqn:Hms; simpl in *.
      exists self'. split; [done|].
      rewrite Hf, Hsel, Hoth, Hd, Hcd.
      destruct c; simpl; by rewrite <- ?app_assoc.
    + exists self. by rewrite app_nil_r.
Qed.

Lemma is_autogenerated_raises self offset length idx e :
  _is_autogenerated_code self offset length idx = Raise e →
  e = IndexError ∧ idx ≠ -1 ∧ py_index (solidity_files self) idx = Raise IndexError.
Proof.
  unfold _is_autogenerated_code. destruct (idx =? -1) eqn:Hi; [done|].
  destruct (py_index (solidity_files self) idx) as [f|e'] eqn:Hp; simpl.
  - by case_bool_decide.
  - intros [= <-]. pose proof (py_index_raises _ _ _ Hp) as ->.
    split_and!; [done | lia | done].
Qed.

Lemma is_autogenerated_returns self offset length idx b :
  _is_autogenerated_code self offset length idx = Return b →
  idx = -1 ∨ ∃ f, py_index (solidity_files self) idx = Return f.
Proof.
  unfold _is_autogenerated_code. destruct (idx =? -1) eqn:Hi; [left; lia|].
  destruct (py_index (solidity_files self) idx) as [f|e'] eqn:Hp; simpl;
    [right; by exists f | done].
Qed.

(** What a completed iteration has done. *)
Lemma loop_body_inv self fr item fr' m :
  loop_body self fr item = Return (fr', m) →
  ∃ o l i,
    assign_fields fr (split ":" (effective_item fr item))
      = Return (Some o, Some l, Some i) ∧
    fr' = {| v_offset := Some o; v_length := Some l; v_idx := Some i;
             v_prev_item := effective_item fr item |} ∧
    triple m = (o, l, i) ∧
    SourceMapping.solc_mapping m = effective_item fr item ∧
    ((classified self m = Return true ∧ SourceMapping.lineno m = None) ∨
     (classified self m = Return false ∧
      ∃ n, line_of self i o = Return n ∧ SourceMapping.lineno m = Some n)).
Proof.
  unfold loop_body, classified.
  destruct (assign_fields fr _) as [[[o l] i]|e]; [|done]; simpl.
  destruct o as [o|]; [|done]; destruct l as [l|]; [|done];
    destruct i as [i|]; [|done]; simpl.
  destruct (_is_autogenerated_code self o l i) as [[]|e] eqn:Ha; [| |done];
    simpl.
  - intros [= <- <-]. exists o, l, i. simpl. split_and!; try done. by left.
  - destruct (line_of self i o) as [n|e] eqn:Hl; [|done]; simpl.
    intros [= <- <-]. exists o, l, i. simpl. split_and!; try done.
    right. split; [done|]. by exists n.
Qed.

(** An iteration completes as soon as the three variables are bound and
    the file index is [-1] or within the list of files. *)
Lemma loop_body_completes self fr item o l i :
  assign_fields fr (split ":" (effective_item fr item))
    = Return (Some o, Some l, Some i) →
  (i = -1 ∨ ∃ f, py_index (solidity_files self) i = Return f) →
  ∃ lineno,
    loop_body self fr item
    = Return ({| v_offset := Some o; v_length := Some l; v_idx := Some i;
                 v_prev_item := effective_item fr item |},
              SourceMapping.mk i o l lineno (effective_item fr item)).
Proof.
  intros Ha Hi. unfold loop_body. rewrite Ha. simpl.
  unfold _is_autogenerated_code, line_of.
  destruct (i =? -1) eqn:Hm; simpl; [by eexists|].
  destruct Hi as [?|[f Hf]]; [lia|]. rewrite Hf. simpl.
  case_bool_decide; simpl; by eexists.
Qed.

Lemma entries_from_app self fr pre post :
  entries_from self fr (pre ++ post)
  = match entries_from self fr pre with
    | (ms, Return fr') =>
        let '(ms', r) := entries_from self fr' post in (ms ++ ms', r)
    | (ms, Raise e) => (ms, Raise e)
    end.
Proof.
  revert fr. induction pre as [|item rest IH]; intros fr; simpl.
  - by destruct (entries_from self fr post).
  - destruct (loop_body self fr item) as [[fr' m]|e]; [|done].
    rewrite IH. destruct (entries_from self fr' rest) as [ms [fr''|e]];
      [|done].
    by destruct (entries_from self fr'' post).
Qed.

(** A property of every completed iteration holds of every entry. *)
Lemma entries_from_Forall (P : SourceMapping.t → Prop) self fr srcmap :
  (∀ fr0 item fr' m, loop_body self fr0 item = Return (fr', m) → P m) →
  Forall P (entries_from self fr srcmap).1.
Proof.
  intros HP. revert fr. induction srcmap as [|item rest IH]; intros fr;
    simpl; [constructor|].
  destruct (loop_body self fr item) as [[fr' m]|e] eqn:Hb; [|constructor].
  specialize (IH fr'). destruct (entries_from self fr' rest) as [ms r].
  constructor; [by eapply HP | done].
Qed.

Lemma entries_from_length self fr srcmap fr' :
  (entries_from self fr srcmap).2 = Return fr' →
  length (entries_from self fr srcmap).1 = length srcmap.
Proof.
  revert fr. induction srcmap as [|item rest IH]; intros fr; simpl; [done|].
  destruct (loop_body self fr item) as [[fr1 m]|e]; [|done].
  specialize (IH fr1). destruct (entries_from self fr1 rest) as [ms r].
  simpl in *. intros Hr. by rewrite IH.
Qed.

(** Unfolding [_get_solc_mappings] down to [entries_from]. *)
Lemma get_solc_mappings_spec self srcmap c self' r :
  _get_solc_mappings self srcmap c = (self', r) →
  solidity_files self' = solidity_files self ∧
  selected_mappings c self'
    = selected_mappings c self ++ (entries_from self initial_frame srcmap).1 ∧
  selected_mappings (negb c) self' = selected_mappings (negb c) self ∧
  disassembly self' = disassembly self ∧
  creation_disassembly self' = creation_disassembly self ∧
  r = (do _ <- (entries_from self initial_frame srcmap).2; Return tt).
Proof.
  unfold _get_solc_mappings.
  destruct (for_items_spec c self initial_frame srcmap)
    as (self1 & -> & Hf & Hsel & Hoth & Hd & Hcd).
  by intros [= <- <-].
Qed.

End Decoder.

(** ** Delta decoding *)

Section Delta.

Context {Instr : Type}.
Implicit Types (self : SolidityContract Instr) (fr : frame).

Lemma effective_item_empty fr :
  effective_item fr "" = effective_item fr (v_prev_item fr).
Proof.
  unfold effective_item. rewrite bool_decide_eq_true_2 by done.
  by case_bool_decide.
Qed.

Lemma assign_field_rule mapping k before after :
  assign_field mapping k before = Return after →
  overwrites_or_keeps mapping k before after.
Proof.
  unfold assign_field, overwrites_or_keeps.
  destruct (mapping !! k) as [field|] eqn:Hk.
  - destruct field as [|a field]; simpl.
    + intros [= <-]. right. auto.
    + destruct (int (String a field)) as [n|e] eqn:Hn; [|done]; simpl.
      intros [= <-]. left. exists (String a field), n. by split_and!.
  - intros [= <-]. right. auto.
Qed.

Lemma last_nonempty_cons prev item (tokens : list string) :
  default prev (last (filter (λ t, t ≠ "") (item :: tokens)))
  = default (if bool_decide (item = "") then prev else item)
      (last (filter (λ t, t ≠ "") tokens)).
Proof.
  rewrite filter_cons. case_decide as Hi.
  - rewrite bool_decide_eq_false_2 by done. rewrite last_cons.
    by destruct (last _).
  - by rewrite bool_decide_eq_true_2 by tauto.
Qed.

(** After the loop [prev_item] holds the most recent non-empty token. *)
Lemma entries_from_prev_item self fr srcmap fr' :
  (entries_from self fr srcmap).2 = Return fr' →
  v_prev_item fr'
  = default (v_prev_item fr) (last (filter (λ t, t ≠ "") srcmap)).
Proof.
  revert fr. induction srcmap as [|item rest IH]; intros fr.
  - simpl. by intros [= ->].
  - rewrite last_nonempty_cons. simpl.
    destruct (loop_body self fr item) as [[fr1 m]|e] eqn:Hb; [|done].
    apply loop_body_inv in Hb as (o & l & i & _ & -> & _).
    specialize (IH {| v_offset := Some o; v_length := Some l;
                      v_idx := Some i;
                      v_prev_item := effective_item fr item |}).
    destruct (entries_from self _ rest) as [ms r]. simpl in *.
    intros Hr. by rewrite (IH Hr).
Qed.

(** The entry a position holds records the token the position stands
    for: itself, or the most recent non-empty token before it. *)
Lemma entries_from_solc_mapping self fr srcmap (k : nat) m item :
  (entries_from self fr srcmap).1 !! k = Some m →
  srcmap !! k = Some item →
  SourceMapping.solc_mapping m
  = if bool_decide (item = "")
    then default (v_prev_item fr) (last (filter (λ t, t ≠ "") (take k srcmap)))
    else item.
Proof.
  revert fr k. induction srcmap as [|it rest IH]; intros fr k; [done|].
  simpl entries_from.
  destruct (loop_body self fr it) as [[fr1 m0]|e] eqn:Hb; [|done].
  apply loop_body_inv in Hb as (o & l & i & _ & -> & _ & Hs & _).
  set (fr1 := {| v_offset := Some o; v_length := Some l; v_idx := Some i;
                 v_prev_item := effective_item fr it |}).
  specialize (IH fr1). destruct (entries_from self fr1 rest) as [ms r].
  destruct k as [|k]; simpl.
  - intros [= <-] [= <-]. by rewrite Hs.
  - intros Hm Hi. rewrite (IH k Hm Hi).
    case_bool_decide; [|done]. by rewrite last_nonempty_cons.
Qed.

Lemma decode_entries files raw :
  decode files raw
  = ((entries_from (new_contract files) initial_frame (split ";" raw)).1,
     do _ <- (entries_from (new_contract files) initial_frame
                (split ";" raw)).2;
     Return tt).
Proof.
  unfold decode.
  destruct (_get_solc_mappings _ _ _) as [self' r] eqn:Hd.
  apply get_solc_mappings_spec in Hd as (_ & Hsel & _ & _ & _ & ->).
  simpl in Hsel. by rewrite Hsel.
Qed.

End Delta.

(** ** Values carried across the tokens *)

Lemma latest_field_snoc k tokens token :
  latest_field k (tokens ++ [token])
  = match split ":" token !! k with
    | Some field =>
        if bool_decide (field = "") then latest_field k tokens else Some field
    | None => latest_field k tokens
    end.
Proof.
  unfold latest_field. rewrite omap_app. simpl.
  destruct (split ":" token !! k) as [field|]; simpl.
  - rewrite filter_app, filter_cons, filter_nil. case_bool_decide.
    + rewrite decide_False by tauto. by rewrite app_nil_r.
    + rewrite decide_True by done. by rewrite last_snoc.
  - by rewrite app_nil_r.
Qed.

Lemma assign_field_value k history token v v' :
  field_value k history v →
  assign_field (split ":" token) k v = Return v' →
  field_value k (history ++ [token]) v'.
Proof.
  unfold field_value, assign_field. rewrite latest_field_snoc.
  destruct (split ":" token !! k) as [field|]; [|by intros ? [= <-]].
  destruct field as [|a field]; [by intros ? [= <-]|].
  rewrite bool_decide_eq_false_2 by done. simpl.
  destruct (int (String a field)) as [n|e] eqn:Hn; [|done]. simpl.
  intros _ [= <-]. by exists n.
Qed.

Lemma latest_field_snoc_empty k tokens :
  latest_field k (tokens ++ [""]) = latest_field k tokens.
Proof. rewrite latest_field_snoc. by destruct k as [|[|k]]. Qed.

Lemma assign_field_again mapping k v v' :
  assign_field mapping k v = Return v' →
  assign_field mapping k v' = Return v'.
Proof.
  unfold assign_field. destruct (mapping !! k) as [field|]; [|by intros [= <-]].
  destruct (0 <? String.length field)%nat; [|by intros [= <-]].
  by destruct (int field).
Qed.

Lemma assign_fields_again fr mapping o l i item :
  assign_fields fr mapping = Return (o, l, i) →
  assign_fields {| v_offset := o; v_length := l; v_idx := i;
                   v_prev_item := item |} mapping
  = Return (o, l, i).
Proof.
  unfold assign_fields. simpl.
  destruct (assign_field mapping 0 _) as [o'|] eqn:H0; [|done].
  destruct (assign_field mapping 1 _) as [l'|] eqn:H1; [|done].
  destruct (assign_field mapping 2 _) as [i'|] eqn:H2; [|done].
  simpl. intros [= <- <- <-].
  by rewrite (assign_field_again _ _ _ _ H0), (assign_field_again _ _ _ _ H1),
             (assign_field_again _ _ _ _ H2).
Qed.

Lemma assign_fields_values fr mapping token history o l i :
  mapping = split ":" token →
  field_value 0 history (v_offset fr) →
  field_value 1 history (v_length fr) →
  field_value 2 history (v_idx fr) →
  assign_fields fr mapping = Return (o, l, i) →
  field_value 0 (history ++ [token]) o ∧
  field_value 1 (history ++ [token]) l ∧
  field_value 2 (history ++ [token]) i.
Proof.
  intros -> V0 V1 V2. unfold assign_fields.
  destruct (assign_field _ 0 _) as [o'|] eqn:H0; [|done].
  destruct (assign_field _ 1 _) as [l'|] eqn:H1; [|done].
  destruct (assign_field _ 2 _) as [i'|] eqn:H2; [|done].
  simpl. intros [= <- <- <-].
  split_and!; by eapply assign_field_value.
Qed.

(** The running values an entry holds, in terms of the tokens of the map:
    the loop carries them from one token to the next, an empty token
    changing none of them. *)
Lemma entries_from_token_values {Instr : Type} (self : SolidityContract Instr)
    fr srcmap history (k : nat) m :
  settled fr →
  field_value 0 history (v_offset fr) →
  field_value 1 history (v_length fr) →
  field_value 2 history (v_idx fr) →
  (entries_from self fr srcmap).1 !! k = Some m →
  field_value 0 (history ++ take (S k) srcmap) (Some (SourceMapping.offset m)) ∧
  field_value 1 (history ++ take (S k) srcmap) (Some (SourceMapping.length m)) ∧
  field_value 2 (history ++ take (S k) srcmap)
    (Some (SourceMapping.solidity_file_idx m)).
Proof.
  revert fr history k.
  induction srcmap as [|item rest IH]; intros fr history k Hset V0 V1 V2;
    [done|].
  simpl entries_from.
  destruct (loop_body self fr item) as [[fr1 m0]|e] eqn:Hb; [|done].
  apply loop_body_inv in Hb as (o & l & i & Ha & -> & Ht & _ & _).
  injection Ht as Ho Hl Hi.
  assert (field_value 0 (history ++ [item]) (Some o) ∧
          field_value 1 (history ++ [item]) (Some l) ∧
          field_value 2 (history ++ [item]) (Some i)) as (V0' & V1' & V2').
  { unfold effective_item in Ha. case_bool_decide as Hitem.
    - subst item. unfold settled in Hset. rewrite Hset in Ha.
      injection Ha as Ho' Hl' Hi'. unfold field_value.
      rewrite !latest_field_snoc_empty. by rewrite <- Ho', <- Hl', <- Hi'.
    - by apply (assign_fields_values fr (split ":" item) item history). }
  set (fr1 := {| v_offset := Some o; v_length := Some l; v_idx := Some i;
                 v_prev_item := effective_item fr item |}).
  assert (settled fr1) as Hset1
    by (unfold settled; simpl; by apply (assign_fields_again fr)).
  specialize (IH fr1 (history ++ [item])).
  destruct (entries_from self fr1 rest) as [ms r]. simpl in IH |- *.
  destruct k as [|k]; simpl.
  - intros [= <-]. rewrite take_0. by rewrite Ho, Hl, Hi.
  - intros Hm. specialize (IH k Hset1 V0' V1' V2' Hm).
    by rewrite <- app_assoc in IH.
Qed.

(** Running the loop on a concrete token: the token is evaluated, the
    file is only required to exist. *)
Lemma entries_from_step {Instr : Type} (self : SolidityContract Instr) fr
    item rest item' o l i :
  effective_item fr item = item' →
  assign_fields fr (split ":" item') = Return (Some o, Some l, Some i) →
  (i = -1 ∨ ∃ f, py_index (solidity_files self) i = Return f) →
  ∃ lineno,
    entries_from self fr (item :: rest)
    = let '(ms, r) :=
        entries_from self
          {| v_offset := Some o; v_length := Some l; v_idx := Some i;
             v_prev_item := item' |} rest in
      (SourceMapping.mk i o l lineno item' :: ms, r).
Proof.
  intros <- Ha Hi.
  destruct (loop_body_completes self fr item o l i Ha Hi) as [lineno Hb].
  exists lineno. simpl. by rewrite Hb.
Qed.

Ltac decode_step :=
  match goal with
  | |- context [entries_from ?self ?fr (?item :: ?rest)] =>
      let lineno := fresh "lineno" in
      let Hstep := fresh "Hstep" in
      edestruct (entries_from_step self fr item rest) as [lineno Hstep];
      [ vm_compute; reflexivity
      | vm_compute; reflexivity
      | right; eexists;
        match goal with
        | |- py_index ?l ?i = _ =>
            apply (py_index_nat l (Z.to_nat i)); reflexivity
        end
      | rewrite Hstep; clear Hstep ]
  end.

(** C1. Delta decoding. The loop carries the offset, the length and the
    file index from each token to the next: the frame one token leaves is
    the frame the next token starts from, so that the entry at any position
    holds, for each of the three values, the integer of the last non-empty
    field at that position among the tokens of the map up to there. An
    empty token is processed exactly as the token kept from the iteration
    before, which is the most recent non-empty token of the map; for the
    token in effect, each of the first three fields that is present and not
    empty overwrites the running value with its integer and an absent or
    empty field keeps the value of the iteration before, the entry holding
    the running values so obtained. With a file 0, ["10:5:0;;20:3:0"]
    decodes to (10,5,0), (10,5,0), (20,3,0) and ["24:37:0;:10"], which
    inherits offset and file index, to (24,37,0), (24,10,0); with files 0
    and 1, ["10:5:0;15::1"] decodes to (10,5,0), (15,5,1) and
    ["10:5:0;::1;7"] to (10,5,0), (10,5,1), (7,5,1). *)
Theorem delta_decoding :
  (∀ (Instr : Type) (self : SolidityContract Instr) fr,
     loop_body self fr "" = loop_body self fr (v_prev_item fr)) ∧
  (∀ (Instr : Type) (self self' : SolidityContract Instr) c srcmap fr',
     for_items c self initial_frame srcmap = (self', Return fr') →
     v_prev_item fr' = last_nonempty srcmap) ∧
  (∀ (Instr : Type) (self : SolidityContract Instr) fr item fr' m,
     loop_body self fr item = Return (fr', m) →
     let mapping := split ":" (effective_item fr item) in
     overwrites_or_keeps mapping 0 (v_offset fr) (v_offset fr') ∧
     overwrites_or_keeps mapping 1 (v_length fr) (v_length fr') ∧
     overwrites_or_keeps mapping 2 (v_idx fr) (v_idx fr') ∧
     v_offset fr' = Some (SourceMapping.offset m) ∧
     v_length fr' = Some (SourceMapping.length m) ∧
     v_idx fr' = Some (SourceMapping.solidity_file_idx m)) ∧
  (∀ file files,
     (decode (file :: files) "10:5:0;;20:3:0").2 = Return tt ∧
     triple <$> (decode (file :: files) "10:5:0;;20:3:0").1
     = [(10, 5, 0); (10, 5, 0); (20, 3, 0)]) ∧
  (∀ file0 file1 files,
     (decode (file0 :: file1 :: files) "10:5:0;15::1").2 = Return tt ∧
     triple <$> (decode (file0 :: file1 :: files) "10:5:0;15::1").1
     = [(10, 5, 0); (15, 5, 1)]) ∧
  (∀ (Instr : Type) (self self1 : SolidityContract Instr) c pre item post fr,
     for_items c self initial_frame pre = (self1, Return fr) →
     for_items c self initial_frame (pre ++ item :: post)
     = match loop_body self1 fr item with
       | Return (fr', m) => for_items c (append_mapping c self1 m) fr' post
       | Raise e => (self1, Raise e)
       end) ∧
  (∀ (Instr : Type) (self self' : SolidityContract Instr) srcmap constructor r,
     _get_solc_mappings self srcmap constructor = (self', r) →
     ∃ new,
       selected_mappings constructor self'
       = selected_mappings constructor self ++ new ∧
       ∀ (k : nat) m, new !! k = Some m →
         ∃ field0 field1 field2,
           latest_field 0 (take (S k) srcmap) = Some field0 ∧
           int field0 = Return (SourceMapping.offset m) ∧
           latest_field 1 (take (S k) srcmap) = Some field1 ∧
           int field1 = Return (SourceMapping.length m) ∧
           latest_field 2 (take (S k) srcmap) = Some field2 ∧
           int field2 = Return (SourceMapping.solidity_file_idx m)) ∧
  (∀ file files,
     (decode (file :: files) "24:37:0;:10").2 = Return tt ∧
     triple <$> (decode (file :: files) "24:37:0;:10").1
     = [(24, 37, 0); (24, 10, 0)]) ∧
  (∀ file0 file1 files,
     (decode (file0 :: file1 :: files) "10:5:0;::1;7").2 = Return tt ∧
     triple <$> (decode (file0 :: file1 :: files) "10:5:0;::1;7").1
     = [(10, 5, 0); (10, 5, 1); (7, 5, 1)]).
Proof.
  split_and!.
  - intros Instr self fr. unfold loop_body. by rewrite effective_item_empty.
  - intros Instr self self' c srcmap fr' Hrun.
    destruct (for_items_spec c self initial_frame srcmap) as (s1 & Hs1 & _).
    rewrite Hrun in Hs1. injection Hs1 as _ Hr. symmetry in Hr.
    by rewrite (entries_from_prev_item _ _ _ _ Hr).
  - intros Instr self fr item fr' m Hb mapping.
    apply loop_body_inv in Hb as (o & l & i & Ha & -> & Ht & _).
    injection Ht as -> -> ->. simpl. fold mapping in Ha.
    unfold assign_fields in Ha.
    destruct (assign_field mapping 0 _) as [o'|] eqn:H0; [|done].
    destruct (assign_field mapping 1 _) as [l'|] eqn:H1; [|done].
    destruct (assign_field mapping 2 _) as [i'|] eqn:H2; [|done].
    simpl in Ha. injection Ha as -> -> ->.
    split_and!; try done; by apply assign_field_rule.
  - intros file files. rewrite decode_entries.
    change (split ";" "10:5:0;;20:3:0") with ["10:5:0"; ""; "20:3:0"].
    do 3 decode_step. by simpl.
  - intros file0 file1 files. rewrite decode_entries.
    change (split ";" "10:5:0;15::1") with ["10:5:0"; "15::1"].
    do 2 decode_step. by simpl.
  - intros Instr self self1 c pre item post fr Hpre.
    revert self Hpre. generalize initial_frame as fr0.
    induction pre as [|item0 rest IH]; intros fr0 self; simpl.
    + by intros [= -> ->].
    + destruct (loop_body self fr0 item0) as [[fr' m]|e]; [|done]. apply IH.
  - intros Instr self self' srcmap c r Hd.
    apply get_solc_mappings_spec in Hd as (_ & Hsel & _).
    eexists. split; [exact Hsel|]. intros k m Hm.
    destruct (entries_from_token_values self initial_frame srcmap [] k m)
      as (V0 & V1 & V2); [done | done | done | done | done |].
    simpl in V0, V1, V2. unfold field_value in V0, V1, V2.
    destruct (latest_field 0 _) as [f0|]; [|done].
    destruct (latest_field 1 _) as [f1|]; [|done].
    destruct (latest_field 2 _) as [f2|]; [|done].
    destruct V0 as (n0 & ? & [= <-]), V1 as (n1 & ? & [= <-]),
      V2 as (n2 & ? & [= <-]).
    by exists f0, f1, f2.
  - intros file files. rewrite decode_entries.
    change (split ";" "24:37:0;:10") with ["24:37:0"; ":10"].
    do 2 decode_step. by simpl.
  - intros file0 file1 files. rewrite decode_entries.
    change (split ";" "10:5:0;::1;7") with ["10:5:0"; "::1"; "7"].
    do 3 decode_step. by simpl.
Qed.

Lemma delta_decoding_witness :
  overwrites_or_keeps (split ":" "15::1") 1 (Some 5) (Some 5) ∧
  triple <$> (decode two_files "10:5:0;15::1").1 = [(10, 5, 0); (15, 5, 1)] ∧
  ∃ new,
    mappings (_get_solc_mappings (new_contract two_files)
                ["24:37:0"; ""; ":10"] false).1
    = [] ++ new ∧
    ∀ (k : nat) m, new !! k = Some m →
      ∃ field0 field1 field2,
        latest_field 0 (take (S k) ["24:37:0"; ""; ":10"]) = Some field0 ∧
        int field0 = Return (SourceMapping.offset m) ∧
        latest_field 1 (take (S k) ["24:37:0"; ""; ":10"]) = Some field1 ∧
        int field1 = Return (SourceMapping.length m) ∧
        latest_field 2 (take (S k) ["24:37:0"; ""; ":10"]) = Some field2 ∧
        int field2 = Return (SourceMapping.solidity_file_idx m).
Proof.
  destruct delta_decoding
    as (_ & _ & Hfield & _ & Hexample & _ & Hcarried & _ & _).
  split_and!.
  - refine (proj1 (proj2 (Hfield unit (new_contract two_files)
      {| v_offset := Some 10; v_length := Some 5; v_idx := Some 0;
         v_prev_item := "10:5:0" |} "15::1"
      {| v_offset := Some 15; v_length := Some 5; v_idx := Some 1;
         v_prev_item := "15::1" |}
      (SourceMapping.mk 1 15 5 (Some 2) "15::1") _))).
    vm_compute. reflexivity.
  - apply (Hexample file_a file_b []).
  - apply (Hcarried unit (new_contract two_files)
             (_get_solc_mappings (new_contract two_files)
                ["24:37:0"; ""; ":10"] false).1
             ["24:37:0"; ""; ":10"] false (Return tt)).
    vm_compute. reflexivity.
Defined.

(** ** Resolving an address *)

Section Resolver.

Context {Instr : Type}.
Variable get_instruction_index : list Instr → Z → result (option Z).
Variable decode_ignore : string → string.
Implicit Types (self : SolidityContract Instr).

(** An entry of file index [-1] resolves to the last source file. *)
Lemma get_source_info_minus_one self address constructor m file :
  selected_entry get_instruction_index self address constructor = Return m →
  SourceMapping.solidity_file_idx m = -1 →
  last (solidity_files self) = Some file →
  get_source_info get_instruction_index decode_ignore self address constructor
  = Return (SourceCodeInfo.mk (filename file) (SourceMapping.lineno m)
              (decode_ignore
                 (py_slice (data file) (SourceMapping.offset m)
                    (SourceMapping.offset m + SourceMapping.length m)))
              (SourceMapping.solc_mapping m)).
Proof.
  unfold selected_entry, get_source_info, selected_mappings.
  intros Hm Hi Hl.
  destruct constructor;
    (destruct (get_instruction_index _ address) as [index|e]; [|done]);
    simpl in *; rewrite Hm; simpl; rewrite Hi;
    by rewrite (py_index_minus_one _ _ Hl).
Qed.

(** The resolution reads the files, and the list and disassembly its
    flag selects, nothing else. *)
Lemma get_source_info_reads self1 self2 address constructor :
  solidity_files self1 = solidity_files self2 →
  selected_mappings constructor self1 = selected_mappings constructor self2 →
  (if constructor then creation_disassembly self1 else disassembly self1)
  = (if constructor then creation_disassembly self2 else disassembly self2) →
  get_source_info get_instruction_index decode_ignore self1 address constructor
  = get_source_info get_instruction_index decode_ignore self2 address constructor.
Proof.
  unfold get_source_info, selected_mappings.
  intros Hf Hm Hd. by rewrite Hf, Hm, Hd.
Qed.

End Resolver.

(** C2. An entry of file index [-1] does not make the resolution fail: the
    index [-1] selects the last source file, from which the location is
    built. Here the only entry of the runtime map is ["0:6:-1"] and the
    files are [a.sol] and [b.sol]. *)
Theorem internal_entry_resolves_to_last_file :
  SourceMapping.solidity_file_idx internal_entry = -1 ∧
  selected_entry index_zero contract_with_internal_entry 0 false
  = Return internal_entry ∧
  get_source_info index_zero id contract_with_internal_entry 0 false
  = Return (SourceCodeInfo.mk "b.sol" None (data file_b) "0:6:-1").
Proof. vm_compute. auto. Qed.

(** ** Classification of compiler generated code *)

(** C3. [_is_autogenerated_code] returns [True] exactly when the file index
    is [-1] or the string made of offset, length and file index joined by
    colons belongs to the set of the file at that index of
    [self.solidity_files]; membership is of the exact string, so a range
    inside a recorded one is not classified; and every entry the decoder
    appends whose triple is classified carries no line number. *)
Theorem autogenerated_classification :
  ∀ (Instr : Type) (self : SolidityContract Instr),
    (∀ offset length file_index,
       _is_autogenerated_code self offset length file_index = Return true ↔
       file_index = -1 ∨
       ∃ file, py_index (solidity_files self) file_index = Return file ∧
               HStr (str offset +:+ ":" +:+ str length +:+ ":" +:+ str file_index)
                 ∈ full_contract_source file) ∧
    (_is_autogenerated_code (new_contract two_files) 24 37 0 = Return true ∧
     _is_autogenerated_code (new_contract two_files) 25 10 0 = Return false) ∧
    (∀ srcmap constructor self' r,
       _get_solc_mappings self srcmap constructor = (self', r) →
       ∃ new,
         selected_mappings constructor self'
         = selected_mappings constructor self ++ new ∧
         ∀ m, m ∈ new → classified self m = Return true →
              SourceMapping.lineno m = None).
Proof.
  intros Instr self. split; [|split].
  - intros offset length file_index. unfold _is_autogenerated_code.
    fold (format_src offset length file_index).
    destruct (file_index =? -1) eqn:Hi.
    + split; [left; lia | done].
    + destruct (py_index (solidity_files self) file_index) as [file|e] eqn:Hp;
        simpl.
      * case_bool_decide as Hin.
        -- split; [right; by exists file | done].
        -- split; [done|]. intros [?|(file' & [= <-] & ?)]; [lia | done].
      * split; [done|]. intros [?|(file' & ? & ?)]; [lia | done].
  - by vm_compute.
  - intros srcmap c self' r Hd.
    apply get_solc_mappings_spec in Hd as (_ & Hsel & _).
    eexists. split; [exact Hsel|].
    pose proof (entries_from_Forall
      (λ m, classified self m = Return true → SourceMapping.lineno m = None)
      self initial_frame srcmap) as HF.
    rewrite Forall_forall in HF. apply HF.
    intros fr0 item fr' m Hb Hc.
    apply loop_body_inv in Hb as (o & l & i & _ & _ & _ & _ & [[_ ?]|[Hc' _]]);
      [done | congruence].
Qed.

Lemma autogenerated_classification_witness :
  _is_autogenerated_code (new_contract two_files) 24 37 0 = Return true ∧
  ∃ new,
    mappings (_get_solc_mappings (new_contract two_files) ["24:37:0"] false).1
    = [] ++ new ∧
    ∀ m, m ∈ new → classified (new_contract two_files) m = Return true →
         SourceMapping.lineno m = None.
Proof.
  destruct (autogenerated_classification unit (new_contract two_files))
    as (Hiff & _ & Hentries).
  split.
  - apply Hiff. right. exists file_a. split; [reflexivity|].
    vm_compute. reflexivity.
  - apply (Hentries ["24:37:0"] false _ (Return tt)). vm_compute. reflexivity.
Defined.

(** ** Line numbers *)

Lemma line_number_at_positive file offset : 1 ≤ line_number_at file offset.
Proof.
  unfold line_number_at.
  pose proof (count_nonneg (substring 0 (Z.to_nat offset) (data file)) "010").
  lia.
Qed.

Lemma line_number_at_mono file offset1 offset2 :
  offset1 ≤ offset2 →
  line_number_at file offset1 ≤ line_number_at file offset2.
Proof.
  intros Ho. unfold line_number_at.
  pose proof (count_substring_mono (data file) "010"
                (Z.to_nat offset1) (Z.to_nat offset2)).
  lia.
Qed.

(** The line number of an entry that is not classified, as the loop
    computes it: through Python's slice, whatever the sign of the offset. *)
Lemma entries_from_lineno {Instr : Type} (self : SolidityContract Instr)
    fr srcmap :
  Forall (λ m,
    classified self m = Return false →
    ∃ file,
      py_index (solidity_files self) (SourceMapping.solidity_file_idx m)
      = Return file ∧
      SourceMapping.lineno m
      = Some (count (py_slice (data file) 0 (SourceMapping.offset m)) "010" + 1))
    (entries_from self fr srcmap).1.
Proof.
  apply entries_from_Forall. intros fr0 item fr' m Hb Hc.
  apply loop_body_inv in Hb
    as (o & l & i & _ & _ & Ht & _ & [[Hc' _]|(_ & n & Hn & Hl)]);
    [congruence|].
  injection Ht as <- _ <-. unfold line_of in Hn.
  destruct (py_index _ _) as [file|e]; [|done].
  injection Hn as <-. by exists file.
Qed.

(** C4, as the code has it. A decoded entry that is not classified and
    whose offset is not negative has for line number the count of newline
    bytes among the first [offset] bytes of the file its index selects,
    plus one; so the number is at least 1, it is 1 when no newline comes
    before the offset, and among such entries of one file it does not
    decrease as the offset grows. *)
Theorem line_numbers :
  ∀ (Instr : Type) (self self' : SolidityContract Instr) srcmap constructor r,
    _get_solc_mappings self srcmap constructor = (self', r) →
    ∃ new,
      selected_mappings constructor self'
      = selected_mappings constructor self ++ new ∧
      (∀ m, m ∈ new → classified self m = Return false →
            0 ≤ SourceMapping.offset m →
            ∃ file,
              py_index (solidity_files self) (SourceMapping.solidity_file_idx m)
              = Return file ∧
              SourceMapping.lineno m
              = Some (line_number_at file (SourceMapping.offset m)) ∧
              1 ≤ line_number_at file (SourceMapping.offset m) ∧
              (count (substring 0 (Z.to_nat (SourceMapping.offset m)) (data file))
                 "010" = 0 →
               SourceMapping.lineno m = Some 1)) ∧
      (∀ m1 m2, m1 ∈ new → m2 ∈ new →
            classified self m1 = Return false →
            classified self m2 = Return false →
            SourceMapping.solidity_file_idx m1
            = SourceMapping.solidity_file_idx m2 →
            0 ≤ SourceMapping.offset m1 ≤ SourceMapping.offset m2 →
            ∃ n1 n2, SourceMapping.lineno m1 = Some n1 ∧
                     SourceMapping.lineno m2 = Some n2 ∧ n1 ≤ n2).
Proof.
  intros Instr self self' srcmap c r Hd.
  apply get_solc_mappings_spec in Hd as (_ & Hsel & _).
  eexists. split; [exact Hsel|].
  pose proof (entries_from_lineno self initial_frame srcmap) as HF.
  rewrite Forall_forall in HF.
  assert (∀ m, m ∈ (entries_from self initial_frame srcmap).1 →
            classified self m = Return false →
            0 ≤ SourceMapping.offset m →
            ∃ file,
              py_index (solidity_files self) (SourceMapping.solidity_file_idx m)
              = Return file ∧
              SourceMapping.lineno m
              = Some (line_number_at file (SourceMapping.offset m))) as Hline.
  { intros m Hm Hc Ho. destruct (HF m Hm Hc) as (file & Hp & Hl).
    exists file. split; [done|]. by rewrite Hl, py_slice_prefix. }
  split.
  - intros m Hm Hc Ho. destruct (Hline m Hm Hc Ho) as (file & Hp & Hl).
    exists file. split_and!; [done | done | apply line_number_at_positive |].
    intros Hz. rewrite Hl. unfold line_number_at. by rewrite Hz.
  - intros m1 m2 Hm1 Hm2 Hc1 Hc2 Hi [Ho1 Ho2].
    destruct (Hline m1 Hm1 Hc1 Ho1) as (file1 & Hp1 & Hl1).
    destruct (Hline m2 Hm2 Hc2 ltac:(lia)) as (file2 & Hp2 & Hl2).
    rewrite Hi, Hp2 in Hp1. injection Hp1 as <-.
    eexists _, _. split_and!; [done | done |].
    by apply line_number_at_mono.
Qed.

Lemma line_numbers_witness :
  ∃ new,
    mappings (_get_solc_mappings (new_contract two_files) ["24:10:0"] false).1
    = [] ++ new ∧
    ∀ m, m ∈ new → classified (new_contract two_files) m = Return false →
         0 ≤ SourceMapping.offset m →
         ∃ file,
           py_index two_files (SourceMapping.solidity_file_idx m) = Return file ∧
           SourceMapping.lineno m
           = Some (line_number_at file (SourceMapping.offset m)) ∧
           1 ≤ line_number_at file (SourceMapping.offset m) ∧
           (count (substring 0 (Z.to_nat (SourceMapping.offset m)) (data file))
              "010" = 0 →
            SourceMapping.lineno m = Some 1).
Proof.
  destruct (line_numbers unit (new_contract two_files)
              (_get_solc_mappings (new_contract two_files) ["24:10:0"] false).1
              ["24:10:0"] false (Return tt))
    as (new & Hnew & Hline & _).
  - vm_compute. reflexivity.
  - exists new. split; [exact Hnew | exact Hline].
Defined.

(** C4 as stated fails on a negative offset: for the map ["-1:0:0;0:0:0"]
    over the three bytes of [b.sol], neither entry is classified, the
    first has line number 2 although no byte lies before offset -1, and
    the line number drops from 2 to 1 as the offset grows from -1 to 0. *)
Lemma line_numbers_negative_offset :
  ∃ m1 m2,
    decode [file_b] "-1:0:0;0:0:0" = ([m1; m2], Return tt) ∧
    classified (new_contract [file_b]) m1 = Return false ∧
    classified (new_contract [file_b]) m2 = Return false ∧
    SourceMapping.solidity_file_idx m1 = SourceMapping.solidity_file_idx m2 ∧
    SourceMapping.offset m1 < SourceMapping.offset m2 ∧
    SourceMapping.lineno m1 = Some 2 ∧
    SourceMapping.lineno m2 = Some 1 ∧
    line_number_at file_b (SourceMapping.offset m1) = 1.
Proof.
  exists (SourceMapping.mk 0 (-1) 0 (Some 2) "-1:0:0"),
         (SourceMapping.mk 0 0 0 (Some 1) "0:0:0").
  vm_compute. split_and!; congruence.
Qed.

(** ** The token recorded in an entry *)

(** C5, as the code has it. The entry appended for a position records the
    token in effect there: the token of the map at that position when it
    is not empty, and for an empty token the most recent non-empty token
    before it (the empty string when there is none). On normal completion
    there is one entry for each token. *)
Theorem recorded_token :
  ∀ (Instr : Type) (self self' : SolidityContract Instr) srcmap constructor r,
    _get_solc_mappings self srcmap constructor = (self', r) →
    ∃ new,
      selected_mappings constructor self'
      = selected_mappings constructor self ++ new ∧
      (r = Return tt → length new = length srcmap) ∧
      ∀ (k : nat) m item,
        new !! k = Some m → srcmap !! k = Some item →
        SourceMapping.solc_mapping m
        = if bool_decide (item = "") then last_nonempty (take k srcmap)
          else item.
Proof.
  intros Instr self self' srcmap c r Hd.
  apply get_solc_mappings_spec in Hd as (_ & Hsel & _ & _ & _ & ->).
  eexists. split; [exact Hsel|]. split.
  - destruct (entries_from self initial_frame srcmap).2 as [fr'|e] eqn:Hr;
      [|done].
    intros _. by eapply entries_from_length.
  - intros k m item Hm Hi.
    by rewrite (entries_from_solc_mapping _ _ _ _ _ _ Hm Hi).
Qed.

Lemma recorded_token_witness :
  ∃ new,
    mappings (_get_solc_mappings (new_contract two_files)
                ["10:5:0"; ""; "20:3:0"] false).1
    = [] ++ new ∧
    (Return tt = Return tt → length new = 3%nat) ∧
    ∀ (k : nat) m item,
      new !! k = Some m → ["10:5:0"; ""; "20:3:0"] !! k = Some item →
      SourceMapping.solc_mapping m
      = if bool_decide (item = "")
        then last_nonempty (take k ["10:5:0"; ""; "20:3:0"])
        else item.
Proof.
  apply (recorded_token unit (new_contract two_files)
           (_get_solc_mappings (new_contract two_files)
              ["10:5:0"; ""; "20:3:0"] false).1
           ["10:5:0"; ""; "20:3:0"] false (Return tt)).
  vm_compute. reflexivity.
Defined.

(** C5 as stated fails on an empty token: in ["10:5:0;;20:3:0"] the second
    token is empty, and the second entry records ["10:5:0"]. *)
Lemma recorded_token_not_original :
  split ";" "10:5:0;;20:3:0" !! 1%nat = Some "" ∧
  SourceMapping.solc_mapping <$> (decode two_files "10:5:0;;20:3:0").1 !! 1%nat
  = Some "10:5:0".
Proof. vm_compute. auto. Qed.

(** ** Extraction of the contract ranges *)

Lemma for_children_well_formed source_map children :
  Forall well_formed_declaration children →
  for_children source_map children
  = Return (list_to_set (omap (λ child, HStr <$> contract_src child) children)
              ∪ source_map).
Proof.
  intros Hwf. revert source_map.
  induction Hwf as [|child rest (attributes & has_kind & Ha & Hk & Hs) _ IH];
    intros source_map; simpl.
  - f_equal. set_solver.
  - unfold add_contract_source, contract_src. rewrite Ha. simpl. rewrite Hk. simpl.
    destruct has_kind.
    + destruct (Hs eq_refl) as [s ->]. simpl. rewrite IH. f_equal. set_solver.
    + simpl. by rewrite IH.
Qed.

Lemma add_contract_source_malformed source_map child :
  lacks_attributes child ∨ lacks_src child →
  add_contract_source source_map child = Raise KeyError.
Proof.
  unfold add_contract_source.
  intros [(m & -> & Hm)|(m & attributes & -> & Ha & Hk & Hs)]; simpl.
  - by rewrite Hm.
  - rewrite Ha. simpl. rewrite Hk. simpl. by rewrite Hs.
Qed.

Lemma for_children_malformed source_map pre bad post :
  Forall well_formed_declaration pre →
  lacks_attributes bad ∨ lacks_src bad →
  for_children source_map (pre ++ bad :: post) = Raise KeyError.
Proof.
  intros Hwf Hbad. revert source_map.
  induction Hwf as [|child rest (attributes & has_kind & Ha & Hk & Hs) _ IH];
    intros source_map; simpl.
  - by rewrite add_contract_source_malformed.
  - unfold add_contract_source. rewrite Ha. simpl. rewrite Hk. simpl.
    destruct has_kind.
    + destruct (Hs eq_refl) as [s ->]. simpl. apply IH.
    + simpl. apply IH.
Qed.

Lemma add_contract_source_without_in source_map child :
  attributes_without_in child →
  add_contract_source source_map child = Raise TypeError.
Proof.
  unfold add_contract_source.
  intros (m & attributes & -> & Ha & Hshape). simpl. rewrite Ha. simpl.
  by destruct Hshape as [->|[[b ->]|[n ->]]].
Qed.

Lemma for_children_without_in source_map pre bad post :
  Forall well_formed_declaration pre →
  attributes_without_in bad →
  for_children source_map (pre ++ bad :: post) = Raise TypeError.
Proof.
  intros Hwf Hbad. revert source_map.
  induction Hwf as [|child rest (attributes & has_kind & Ha & Hk & Hs) _ IH];
    intros source_map; simpl.
  - by rewrite add_contract_source_without_in.
  - unfold add_contract_source. rewrite Ha. simpl. rewrite Hk. simpl.
    destruct has_kind.
    + destruct (Hs eq_refl) as [s ->]. simpl. apply IH.
    + simpl. apply IH.
Qed.

Lemma well_formed_declaration_shape child :
  well_formed_declaration child ↔
  ∃ m attributes,
    child = JObj m ∧ m !! "attributes" = Some attributes ∧
    is_container attributes ∧
    (contains "contractKind" attributes = Return true →
     ∃ s, m !! "src" = Some (JStr s)).
Proof.
  unfold well_formed_declaration, is_container. split.
  - intros (attributes & has_kind & Ha & Hk & Hs).
    destruct child as [| | | | |m]; try done. simpl in Ha.
    destruct (m !! "attributes") as [a|] eqn:Hm; [|done].
    injection Ha as ->. exists m, attributes. split_and!; [done | done | |].
    + destruct attributes; try done; eauto.
    + intros Hk'. rewrite Hk in Hk'. injection Hk' as ->.
      destruct (Hs eq_refl) as [s Hsrc]. simpl in Hsrc.
      destruct (m !! "src") as [v|]; [|done]. injection Hsrc as ->. by exists s.
  - intros (m & attributes & -> & Ha & Hshape & Hs).
    assert (∃ has_kind, contains "contractKind" attributes = Return has_kind)
      as [has_kind Hk]
      by (destruct Hshape as [[? ->]|[[? ->]|[? ->]]]; simpl; eauto).
    exists attributes, has_kind. simpl. rewrite Ha. split_and!; [done | done |].
    intros ->. destruct (Hs Hk) as [s Hsrc]. exists s. by rewrite Hsrc.
Qed.

(** C6, as the code has it. A declaration is well formed when it is an
    object whose [attributes] is an object, a list or a string, and which
    carries a string [src] when its [attributes] contain [contractKind].
    Over a list of declarations that are all well formed, extraction
    returns the [src] strings of those marked with a contract kind, the
    others being passed over whether or not they carry a [src]. Coming
    after well formed ones, a declaration without [attributes], or marked
    with a contract kind but without [src], makes extraction raise
    [KeyError], and one whose [attributes] is [None], a boolean or a number
    makes it raise [TypeError]; no set is returned. *)
Theorem extraction_of_contract_sources :
  ∀ ast children,
    getitem ast "children" = Return (JArr children) →
    (Forall well_formed_declaration children →
     get_full_contract_sources ast
     = Return (list_to_set
                 (omap (λ child, HStr <$> contract_src child) children))) ∧
    (∀ pre bad post,
       children = pre ++ bad :: post →
       Forall well_formed_declaration pre →
       lacks_attributes bad ∨ lacks_src bad →
       get_full_contract_sources ast = Raise KeyError) ∧
    (∀ pre bad post,
       children = pre ++ bad :: post →
       Forall well_formed_declaration pre →
       attributes_without_in bad →
       get_full_contract_sources ast = Raise TypeError) ∧
    (∀ child,
       well_formed_declaration child ↔
       ∃ m attributes,
         child = JObj m ∧ m !! "attributes" = Some attributes ∧
         is_container attributes ∧
         (contains "contractKind" attributes = Return true →
          ∃ s, m !! "src" = Some (JStr s))).
Proof.
  intros ast children Hc. unfold get_full_contract_sources. rewrite Hc. simpl.
  split; [|split; [|split]].
  - intros Hwf. rewrite for_children_well_formed by done. f_equal. set_solver.
  - intros pre bad post -> Hwf Hbad. by apply for_children_malformed.
  - intros pre bad post -> Hwf Hbad. by apply for_children_without_in.
  - apply well_formed_declaration_shape.
Qed.

Lemma import_node_well_formed : well_formed_declaration import_node.
Proof.
  exists (JObj {[ "file" := JStr "b.sol" ]}), false.
  split_and!; [by vm_compute | by vm_compute | done].
Defined.

Lemma contract_node_well_formed : well_formed_declaration contract_node.
Proof.
  exists (JObj {[ "contractKind" := JStr "contract" ]}), true.
  split_and!; [by vm_compute | by vm_compute |].
  intros _. exists "24:37:0". by vm_compute.
Defined.

Lemma pragma_node_lacks_attributes : lacks_attributes pragma_node.
Proof. eexists. split; [reflexivity | by vm_compute]. Defined.

Lemma null_attributes_node_without_in :
  attributes_without_in null_attributes_node.
Proof.
  eexists _, JNull. split_and!; [reflexivity | by vm_compute | by left].
Defined.

Lemma extraction_of_contract_sources_witness :
  get_full_contract_sources ast_well_formed
  = Return (list_to_set
              (omap (λ child, HStr <$> contract_src child)
                 [import_node; contract_node])) ∧
  get_full_contract_sources ast_with_bare_pragma = Raise KeyError ∧
  get_full_contract_sources ast_with_null_attributes = Raise TypeError.
Proof.
  split; [|split].
  - apply (extraction_of_contract_sources ast_well_formed
             [import_node; contract_node]).
    + vm_compute. reflexivity.
    + repeat constructor;
        [apply import_node_well_formed | apply contract_node_well_formed].
  - apply (proj1 (proj2 (extraction_of_contract_sources ast_with_bare_pragma
                    [contract_node; pragma_node] ltac:(vm_compute; reflexivity)))
             [contract_node] pragma_node []).
    + reflexivity.
    + repeat constructor. apply contract_node_well_formed.
    + left. apply pragma_node_lacks_attributes.
  - apply (proj1 (proj2 (proj2 (extraction_of_contract_sources
                    ast_with_null_attributes
                    [contract_node; null_attributes_node]
                    ltac:(vm_compute; reflexivity))))
             [contract_node] null_attributes_node []).
    + reflexivity.
    + repeat constructor. apply contract_node_well_formed.
    + apply null_attributes_node_without_in.
Defined.

(** C6 as stated fails: with a contract declaration followed by a
    declaration without [attributes], extraction raises [KeyError] and the
    range of the contract is not returned. *)
Lemma extraction_does_not_skip :
  getitem ast_with_bare_pragma "children"
  = Return (JArr [contract_node; pragma_node]) ∧
  well_formed_declaration contract_node ∧
  lacks_attributes pragma_node ∧
  get_full_contract_sources ast_with_bare_pragma = Raise KeyError.
Proof.
  split_and!.
  - by vm_compute.
  - apply contract_node_well_formed.
  - apply pragma_node_lacks_attributes.
  - by vm_compute.
Qed.

(** ** The first token *)

Lemma assign_field_unbound mapping k v :
  assign_field mapping k None = Return v →
  if has_field mapping k then ∃ n, v = Some n else v = None.
Proof.
  unfold assign_field, has_field.
  destruct (mapping !! k) as [field|]; [|by intros [= <-]].
  destruct (0 <? String.length field)%nat; [|by intros [= <-]].
  destruct (int field) as [n|e]; [|done]. simpl. intros [= <-]. by exists n.
Qed.

Lemma assign_field_raises mapping k v e :
  assign_field mapping k v = Raise e → e = ValueError.
Proof.
  unfold assign_field. destruct (mapping !! k) as [field|]; [|done].
  destruct (0 <? String.length field)%nat; [|done].
  unfold int. destruct (int_literal field); simpl; [done | by intros [= <-]].
Qed.

Lemma effective_item_initial item : effective_item initial_frame item = item.
Proof. unfold effective_item. by case_bool_decide. Qed.

(** On a token that leaves out one of the three fields the first
    iteration raises. *)
Lemma loop_body_first_token {Instr : Type} (self : SolidityContract Instr) item :
  spells_three_fields item = false →
  ∃ e, loop_body self initial_frame item = Raise e ∧ DecodeError e.
Proof.
  unfold spells_three_fields, loop_body, assign_fields, DecodeError.
  rewrite effective_item_initial. intros Hs.
  destruct (assign_field (split ":" item) 0 _) as [o|e] eqn:H0; simpl;
    [|apply assign_field_raises in H0 as ->; eauto].
  destruct (assign_field (split ":" item) 1 _) as [l|e] eqn:H1; simpl;
    [|apply assign_field_raises in H1 as ->; eauto].
  destruct (assign_field (split ":" item) 2 _) as [i|e] eqn:H2; simpl;
    [|apply assign_field_raises in H2 as ->; eauto].
  apply assign_field_unbound in H0, H1, H2.
  destruct (has_field _ 0); [destruct H0 as [? ->] | subst o; eauto].
  destruct (has_field _ 1); [destruct H1 as [? ->] | subst l; eauto].
  destruct (has_field _ 2); [done | subst i; eauto].
Qed.

(** C7. When the first token of a map leaves out (absent or empty) one of
    its first three fields, decoding raises and appends no entry: the
    object is left as it was. The exception is the decode error of the
    code, [UnboundLocalError] for the variable never assigned, or
    [ValueError] when a field before it is not an integer. *)
Theorem first_token_omission :
  ∀ (Instr : Type) (self : SolidityContract Instr) item rest constructor,
    spells_three_fields item = false →
    ∃ e, _get_solc_mappings self (item :: rest) constructor = (self, Raise e) ∧
         DecodeError e.
Proof.
  intros Instr self item rest c Hs.
  destruct (loop_body_first_token self item Hs) as (e & Hb & He).
  exists e. split; [|done].
  unfold _get_solc_mappings. simpl. by rewrite Hb.
Qed.

Lemma first_token_omission_witness :
  ∃ e, _get_solc_mappings (new_contract two_files) ["15::1"; "10:5:0"] false
       = (new_contract two_files, Raise e) ∧ DecodeError e.
Proof.
  apply (first_token_omission unit (new_contract two_files) "15::1"
           ["10:5:0"] false).
  vm_compute. reflexivity.
Defined.

(** ** Tokens parsed on their own *)

Lemma assign_field_present mapping k v :
  has_field mapping k = true →
  assign_field mapping k v = assign_field mapping k None.
Proof.
  unfold has_field, assign_field.
  destruct (mapping !! k) as [field|]; [|done]. by intros ->.
Qed.

Lemma spells_three_fields_not_empty item :
  spells_three_fields item = true → item ≠ "".
Proof. by intros Hs ->. Qed.

(** A token that spells its three fields is processed the same way from
    any frame. *)
Lemma loop_body_spelled {Instr : Type} (self : SolidityContract Instr) fr item :
  spells_three_fields item = true →
  loop_body self fr item = loop_body self initial_frame item.
Proof.
  intros Hs. pose proof (spells_three_fields_not_empty _ Hs) as Hne.
  unfold spells_three_fields in Hs.
  apply andb_prop in Hs as [Hs H2]. apply andb_prop in Hs as [H0 H1].
  unfold loop_body, effective_item, assign_fields.
  rewrite bool_decide_eq_false_2 by done.
  rewrite (assign_field_present _ 0 (v_offset fr)) by done.
  rewrite (assign_field_present _ 1 (v_length fr)) by done.
  by rewrite (assign_field_present _ 2 (v_idx fr)) by done.
Qed.

Lemma entries_from_parse_each {Instr : Type} (self : SolidityContract Instr)
    fr srcmap :
  Forall (λ item, spells_three_fields item = true) srcmap →
  (entries_from self fr srcmap).1 = (parse_each self srcmap).1 ∧
  (do _ <- (entries_from self fr srcmap).2; Return tt)
  = (parse_each self srcmap).2.
Proof.
  intros Hall. revert fr.
  induction Hall as [|item rest Hs _ IH]; intros fr; simpl; [done|].
  rewrite (loop_body_spelled self fr item Hs).
  destruct (loop_body self initial_frame item) as [[fr' m]|e]; [|done].
  destruct (IH fr') as [IH1 IH2].
  destruct (entries_from self fr' rest) as [ms r].
  destruct (parse_each self rest) as [ms' r']. simpl in *.
  by rewrite IH1, IH2.
Qed.

(** C8, as the code has it. When every token of the map spells out its
    first three fields, decoding the whole map appends the entries, and
    ends the way, that parsing each token on its own from the initial
    frame does: no entry depends on a token before it. *)
Theorem decoding_spelled_tokens :
  ∀ (Instr : Type) (self self' : SolidityContract Instr) srcmap constructor r,
    Forall (λ item, spells_three_fields item = true) srcmap →
    _get_solc_mappings self srcmap constructor = (self', r) →
    selected_mappings constructor self'
    = selected_mappings constructor self ++ (parse_each self srcmap).1 ∧
    r = (parse_each self srcmap).2.
Proof.
  intros Instr self self' srcmap c r Hall Hd.
  apply get_solc_mappings_spec in Hd as (_ & Hsel & _ & _ & _ & ->).
  destruct (entries_from_parse_each self initial_frame srcmap Hall)
    as [H1 H2].
  by rewrite Hsel, H1, H2.
Qed.

Lemma decoding_spelled_tokens_witness :
  mappings (_get_solc_mappings (new_contract two_files)
              ["10:5:0"; "15:5:1"] false).1
  = [] ++ (parse_each (new_contract two_files) ["10:5:0"; "15:5:1"]).1 ∧
  Return tt = (parse_each (new_contract two_files) ["10:5:0"; "15:5:1"]).2.
Proof.
  apply (decoding_spelled_tokens unit (new_contract two_files)
           (_get_solc_mappings (new_contract two_files)
              ["10:5:0"; "15:5:1"] false).1
           ["10:5:0"; "15:5:1"] false (Return tt)).
  - repeat constructor.
  - vm_compute. reflexivity.
Defined.

(** C8 as stated fails: no token of ["10:5:0;15::1"] is empty, the map
    decodes to two entries, the second with the length of the first, while
    its second token parsed on its own raises for want of a length. *)
Lemma decoding_inherits_fields :
  no_empty_token (split ";" "10:5:0;15::1") = true ∧
  (decode two_files "10:5:0;15::1").2 = Return tt ∧
  triple <$> (decode two_files "10:5:0;15::1").1 = [(10, 5, 0); (15, 5, 1)] ∧
  parse_each (new_contract two_files) (split ";" "10:5:0;15::1")
  = ([SourceMapping.mk 0 10 5 (Some 1) "10:5:0"], Raise UnboundLocalError).
Proof. vm_compute. auto. Qed.

(** ** File indices out of range *)

Lemma for_items_app {Instr : Type} c (self : SolidityContract Instr) fr pre post :
  for_items c self fr (pre ++ post)
  = match for_items c self fr pre with
    | (self1, Return fr1) => for_items c self1 fr1 post
    | (self1, Raise e) => (self1, Raise e)
    end.
Proof.
  revert self fr. induction pre as [|item rest IH]; intros self fr; simpl;
    [done|].
  destruct (loop_body self fr item) as [[fr' m]|e]; [|done]. apply IH.
Qed.

Lemma for_items_files {Instr : Type} c (self self' : SolidityContract Instr)
    fr srcmap r :
  for_items c self fr srcmap = (self', r) →
  solidity_files self' = solidity_files self.
Proof.
  intros Hrun.
  destruct (for_items_spec c self fr srcmap) as (s1 & Hs1 & Hf & _).
  rewrite Hrun in Hs1. by injection Hs1 as ->.
Qed.

(** C9. A file index at or beyond the number of source files makes the
    check raise [IndexError]; a token that leaves the three variables bound
    with such an index ends the decoding with [IndexError], the entries of
    the tokens before it being all that was appended; and when decoding
    completes, every entry has a file index that is [-1] or a valid index
    of the list of files. *)
Theorem file_index_out_of_range :
  ∀ (Instr : Type) (self : SolidityContract Instr),
    (∀ offset len file_index,
       Z.of_nat (length (solidity_files self)) ≤ file_index →
       _is_autogenerated_code self offset len file_index
       = Raise IndexError) ∧
    (∀ constructor pre item post self1 fr o l i,
       for_items constructor self initial_frame pre = (self1, Return fr) →
       assign_fields fr (split ":" (effective_item fr item))
       = Return (Some o, Some l, Some i) →
       Z.of_nat (length (solidity_files self)) ≤ i →
       _get_solc_mappings self (pre ++ item :: post) constructor
       = (self1, Raise IndexError)) ∧
    (∀ srcmap constructor self',
       _get_solc_mappings self srcmap constructor = (self', Return tt) →
       ∃ new,
         selected_mappings constructor self'
         = selected_mappings constructor self ++ new ∧
         length new = length srcmap ∧
         ∀ m, m ∈ new →
              SourceMapping.solidity_file_idx m = -1 ∨
              - Z.of_nat (length (solidity_files self))
                ≤ SourceMapping.solidity_file_idx m
                < Z.of_nat (length (solidity_files self))).
Proof.
  intros Instr self.
  assert (∀ (s : SolidityContract Instr) offset len file_index,
            Z.of_nat (length (solidity_files s)) ≤ file_index →
            _is_autogenerated_code s offset len file_index
            = Raise IndexError) as Hcheck.
  { intros s offset len file_index Hi. unfold _is_autogenerated_code.
    replace (file_index =? -1) with false by lia.
    by rewrite py_index_too_large. }
  split; [apply Hcheck | split].
  - intros c pre item post self1 fr o l i Hpre Ha Hi.
    unfold _get_solc_mappings. rewrite for_items_app, Hpre. simpl.
    unfold loop_body. rewrite Ha. simpl.
    rewrite Hcheck; [done|].
    by rewrite (for_items_files _ _ _ _ _ _ Hpre).
  - intros srcmap c self' Hd.
    apply get_solc_mappings_spec in Hd as (_ & Hsel & _ & _ & _ & Hr).
    eexists. split; [exact Hsel|]. split.
    + destruct (entries_from self initial_frame srcmap).2 as [fr'|e] eqn:Hfr;
        [|done].
      by eapply entries_from_length.
    + pose proof (entries_from_Forall
        (λ m, SourceMapping.solidity_file_idx m = -1 ∨
              - Z.of_nat (length (solidity_files self))
                ≤ SourceMapping.solidity_file_idx m
                < Z.of_nat (length (solidity_files self)))
        self initial_frame srcmap) as HF.
      rewrite Forall_forall in HF. apply HF.
      intros fr0 item fr' m Hb.
      apply loop_body_inv in Hb as (o & l & i & _ & _ & Ht & _ & Hc).
      assert (∃ b, classified self m = Return b) as [b Hb]
        by (destruct Hc as [[? _]|[? _]]; eauto).
      apply is_autogenerated_returns in Hb as [?|[f Hf]]; [by left|].
      right. by apply py_index_Return in Hf as [? _].
Qed.

Lemma file_index_out_of_range_witness :
  _is_autogenerated_code (new_contract two_files) 0 0 2 = Raise IndexError ∧
  _get_solc_mappings (new_contract two_files) (["10:5:0"] ++ "15::2" :: [""])
    false
  = ((_get_solc_mappings (new_contract two_files) ["10:5:0"] false).1,
     Raise IndexError).
Proof.
  destruct (file_index_out_of_range unit (new_contract two_files))
    as (Hcheck & Htoken & _).
  split.
  - apply Hcheck. simpl. lia.
  - apply (Htoken false ["10:5:0"] "15::2" [""] _
             {| v_offset := Some 10; v_length := Some 5; v_idx := Some 0;
                v_prev_item := "10:5:0" |} 15 5 2).
    + vm_compute. reflexivity.
    + vm_compute. reflexivity.
    + simpl. lia.
Defined.

(** ** Runtime and constructor maps *)

(** C10. Decoding with [constructor=False] appends to [self.mappings] and
    leaves [self.constructor_mappings] as it was, decoding with
    [constructor=True] does the converse; and [get_source_info] reads the
    source files with the list and the disassembly its flag selects only:
    its answer for one flag is not changed by decoding a map for the other
    flag, nor by any change of the other list and disassembly. *)
Theorem runtime_and_constructor_are_separate :
  ∀ (Instr : Type) (get_instruction_index : list Instr → Z → result (option Z))
    (decode_ignore : string → string) (self : SolidityContract Instr),
    (∀ srcmap self' r,
       _get_solc_mappings self srcmap false = (self', r) →
       constructor_mappings self' = constructor_mappings self ∧
       ∃ new, mappings self' = mappings self ++ new) ∧
    (∀ srcmap self' r,
       _get_solc_mappings self srcmap true = (self', r) →
       mappings self' = mappings self ∧
       ∃ new, constructor_mappings self' = constructor_mappings self ++ new) ∧
    (∀ srcmap address,
       get_source_info get_instruction_index decode_ignore
         (_get_solc_mappings self srcmap true).1 address false
       = get_source_info get_instruction_index decode_ignore self address false) ∧
    (∀ srcmap address,
       get_source_info get_instruction_index decode_ignore
         (_get_solc_mappings self srcmap false).1 address true
       = get_source_info get_instruction_index decode_ignore self address true) ∧
    (∀ other_mappings other_disassembly address,
       get_source_info get_instruction_index decode_ignore
         {| solidity_files := solidity_files self;
            mappings := mappings self;
            constructor_mappings := other_mappings;
            disassembly := disassembly self;
            creation_disassembly := other_disassembly |} address false
       = get_source_info get_instruction_index decode_ignore self address false) ∧
    (∀ other_mappings other_disassembly address,
       get_source_info get_instruction_index decode_ignore
         {| solidity_files := solidity_files self;
            mappings := other_mappings;
            constructor_mappings := constructor_mappings self;
            disassembly := other_disassembly;
            creation_disassembly := creation_disassembly self |} address true
       = get_source_info get_instruction_index decode_ignore self address true).
Proof.
  intros Instr gii dec self. split_and!.
  - intros srcmap self' r Hd.
    apply get_solc_mappings_spec in Hd as (_ & Hsel & Hoth & _).
    split; [exact Hoth | eexists; exact Hsel].
  - intros srcmap self' r Hd.
    apply get_solc_mappings_spec in Hd as (_ & Hsel & Hoth & _).
    split; [exact Hoth | eexists; exact Hsel].
  - intros srcmap address.
    destruct (_get_solc_mappings self srcmap true) as [self' r] eqn:Hd.
    apply get_solc_mappings_spec in Hd as (Hf & _ & Hoth & Hdis & _).
    by apply get_source_info_reads.
  - intros srcmap address.
    destruct (_get_solc_mappings self srcmap false) as [self' r] eqn:Hd.
    apply get_solc_mappings_spec in Hd as (Hf & _ & Hoth & _ & Hdis & _).
    by apply get_source_info_reads.
  - intros. by apply get_source_info_reads.
  - intros. by apply get_source_info_reads.
Qed.

Lemma runtime_and_constructor_are_separate_witness :
  constructor_mappings
    (_get_solc_mappings contract_with_internal_entry ["24:10:0"] false).1
  = [] ∧
  ∃ new,
    mappings (_get_solc_mappings contract_with_internal_entry ["24:10:0"] false).1
    = [internal_entry] ++ new.
Proof.
  apply (proj1 (runtime_and_constructor_are_separate unit index_zero id
                  contract_with_internal_entry)
           ["24:10:0"] _ (Return tt)).
  vm_compute. reflexivity.
Defined.

(** * Further properties of the decoder *)

(** ** Entries and tokens *)

Lemma split_length sep s :
  Z.of_nat (length (split sep s)) = count s sep + 1.
Proof.
  induction s as [|a s IH]; [done|]. cbn [split count].
  destruct (Ascii.eqb a sep).
  - cbn [length]. rewrite Nat2Z.inj_succ. lia.
  - pose proof (split_not_nil sep s).
    destruct (split sep s) as [|field fields]; [done|].
    cbn [length] in *. rewrite Nat2Z.inj_succ in *. lia.
Qed.

(** X1. When decoding a raw map completes, it has appended one entry for
    each token: as many as the map has semicolons, plus one. *)
Theorem one_entry_per_token :
  ∀ (Instr : Type) (self self' : SolidityContract Instr) raw constructor,
    _get_solc_mappings self (split ";" raw) constructor = (self', Return tt) →
    Z.of_nat (length (selected_mappings constructor self'))
    = Z.of_nat (length (selected_mappings constructor self))
      + count raw ";" + 1.
Proof.
  intros Instr self self' raw c Hd.
  apply get_solc_mappings_spec in Hd as (_ & Hsel & _ & _ & _ & Hr).
  destruct (entries_from self initial_frame (split ";" raw)).2
    as [fr'|e] eqn:Hfr; [|done].
  rewrite Hsel, length_app, (entries_from_length _ _ _ _ Hfr).
  rewrite Nat2Z.inj_add, split_length. lia.
Qed.

Lemma one_entry_per_token_witness :
  Z.of_nat (length (mappings
     (_get_solc_mappings (new_contract two_files)
        (split ";" "10:5:0;;20:3:0") false).1))
  = Z.of_nat (length (mappings (new_contract two_files)))
    + count "10:5:0;;20:3:0" ";" + 1.
Proof.
  apply (one_entry_per_token unit (new_contract two_files)
           (_get_solc_mappings (new_contract two_files)
              (split ";" "10:5:0;;20:3:0") false).1
           "10:5:0;;20:3:0" false).
  vm_compute. reflexivity.
Defined.

(** X2. Tokens added at the end of a map do not change what the tokens
    before them decode to: if the shorter map raises, the longer one raises
    the same exception with the same entries appended; if it completes, the
    longer one appends its entries first, then at most one entry for each
    further token. *)
Theorem decoding_extends :
  ∀ (Instr : Type) (self self1 : SolidityContract Instr) pre post constructor,
    (∀ e,
       _get_solc_mappings self pre constructor = (self1, Raise e) →
       _get_solc_mappings self (pre ++ post) constructor = (self1, Raise e)) ∧
    (∀ self2 r,
       _get_solc_mappings self pre constructor = (self1, Return tt) →
       _get_solc_mappings self (pre ++ post) constructor = (self2, r) →
       ∃ new,
         selected_mappings constructor self2
         = selected_mappings constructor self1 ++ new ∧
         (length new ≤ length post)%nat ∧
         (r = Return tt → length new = length post)).
Proof.
  intros Instr self self1 pre post c. unfold _get_solc_mappings.
  rewrite for_items_app.
  destruct (for_items c self initial_frame pre) as [s1 [fr1|e1]] eqn:Hpre.
  - split; [intros e [= _ ?]; done|].
    intros self2 r [= ->] Hpost.
    destruct (for_items_spec c self1 fr1 post)
      as (s2 & Hs2 & _ & Hsel & _).
    rewrite Hs2 in Hpost. injection Hpost as -> <-.
    eexists. split; [exact Hsel|].
    clear. revert fr1. induction post as [|item rest IH]; intros fr1; simpl;
      [done|].
    destruct (loop_body self1 fr1 item) as [[fr' m]|e]; simpl; [|split; [lia|done]].
    specialize (IH fr'). destruct (entries_from self1 fr' rest) as [ms r].
    simpl in *. destruct IH as [IH1 IH2]. split; [lia|].
    intros Hr. by rewrite IH2.
  - split; [|intros self2 r [= _ ?]; done].
    by intros e [= -> ->].
Qed.

Lemma decoding_extends_witness :
  _get_solc_mappings (new_contract two_files) (["10:5:0"; "x"] ++ ["20:3:0"]) false
  = ((_get_solc_mappings (new_contract two_files) ["10:5:0"; "x"] false).1,
     Raise ValueError).
Proof.
  apply (proj1 (decoding_extends unit (new_contract two_files)
                  (_get_solc_mappings (new_contract two_files)
                     ["10:5:0"; "x"] false).1
                  ["10:5:0"; "x"] ["20:3:0"] false) ValueError).
  vm_compute. reflexivity.
Defined.

(** X3. Only the first three fields of a token are read: two non-empty
    tokens whose first three fields are the same (whatever jump type or
    modifier depth follows) are processed alike from any frame, raising
    the same exception or giving the same running values and the same
    entry up to the recorded token. *)
Theorem trailing_fields_are_ignored :
  ∀ (Instr : Type) (self : SolidityContract Instr) fr item1 item2,
    item1 ≠ "" → item2 ≠ "" →
    take 3 (split ":" item1) = take 3 (split ":" item2) →
    match loop_body self fr item1, loop_body self fr item2 with
    | Return (fr1, m1), Return (fr2, m2) =>
        triple m1 = triple m2 ∧
        SourceMapping.lineno m1 = SourceMapping.lineno m2 ∧
        v_offset fr1 = v_offset fr2 ∧ v_length fr1 = v_length fr2 ∧
        v_idx fr1 = v_idx fr2
    | Raise e1, Raise e2 => e1 = e2
    | _, _ => False
    end.
Proof.
  intros Instr self fr item1 item2 H1 H2 Ht.
  assert (∀ (k : nat) v, (k < 3)%nat →
            assign_field (split ":" item1) k v
            = assign_field (split ":" item2) k v) as Hk.
  { intros k v Hlt. unfold assign_field.
    by rewrite <- (lookup_take_lt (split ":" item1) 3 k),
               <- (lookup_take_lt (split ":" item2) 3 k), Ht by done. }
  unfold loop_body, effective_item, assign_fields.
  rewrite !bool_decide_eq_false_2 by done.
  rewrite !Hk by lia.
  destruct (assign_field (split ":" item2) 0 _) as [o|e]; [|done]; simpl.
  destruct (assign_field (split ":" item2) 1 _) as [l|e]; [|done]; simpl.
  destruct (assign_field (split ":" item2) 2 _) as [i|e]; [|done]; simpl.
  destruct (read_local o) as [offset|e]; [|done]; simpl.
  destruct (read_local l) as [len|e]; [|done]; simpl.
  destruct (read_local i) as [idx|e]; [|done]; simpl.
  destruct (_is_autogenerated_code self offset len idx) as [[]|e]; [| |done];
    simpl; [done|].
  by destruct (line_of self idx offset) as [n|e].
Qed.

Lemma trailing_fields_are_ignored_witness :
  match loop_body (new_contract two_files) initial_frame "24:10:0:-:1",
        loop_body (new_contract two_files) initial_frame "24:10:0" with
  | Return (fr1, m1), Return (fr2, m2) =>
      triple m1 = triple m2 ∧
      SourceMapping.lineno m1 = SourceMapping.lineno m2 ∧
      v_offset fr1 = v_offset fr2 ∧ v_length fr1 = v_length fr2 ∧
      v_idx fr1 = v_idx fr2
  | Raise e1, Raise e2 => e1 = e2
  | _, _ => False
  end.
Proof.
  apply (trailing_fields_are_ignored unit (new_contract two_files)
           initial_frame "24:10:0:-:1" "24:10:0").
  - discriminate.
  - discriminate.
  - vm_compute. reflexivity.
Defined.

(** ** Bounds of line numbers and snippets *)

Lemma count_take_le (l : list ascii) n c :
  count (string_of_list_ascii (take n l)) c ≤ count (string_of_list_ascii l) c.
Proof.
  revert n. induction l as [|a l IH]; intros [|n]; simpl; try lia.
  - pose proof (count_nonneg (string_of_list_ascii l) c).
    destruct (Ascii.eqb a c); lia.
  - specialize (IH n). lia.
Qed.

Lemma count_drop_le (l : list ascii) n c :
  count (string_of_list_ascii (drop n l)) c ≤ count (string_of_list_ascii l) c.
Proof.
  revert n. induction l as [|a l IH]; intros [|n]; simpl; try lia.
  specialize (IH n). destruct (Ascii.eqb a c); lia.
Qed.

Lemma count_py_slice_le s lo hi c : count (py_slice s lo hi) c ≤ count s c.
Proof.
  unfold py_slice, list_slice.
  etrans; [apply count_take_le|]. etrans; [apply count_drop_le|].
  by rewrite string_of_list_ascii_of_string.
Qed.

Lemma length_list_ascii_of_string s :
  length (list_ascii_of_string s) = String.length s.
Proof. induction s as [|a s IH]; simpl; [done | by rewrite IH]. Qed.

Lemma py_slice_whole s offset :
  Z.of_nat (String.length s) ≤ offset → py_slice s 0 offset = s.
Proof.
  intros Ho. rewrite py_slice_prefix by lia. rewrite substring_take.
  rewrite take_ge by (rewrite length_list_ascii_of_string; lia).
  apply string_of_list_ascii_of_string.
Qed.

Lemma substring_take_drop n m s :
  substring n m s
  = string_of_list_ascii (take m (drop n (list_ascii_of_string s))).
Proof.
  revert n m. induction s as [|a s IH]; intros [|n] [|m]; simpl; try done.
  by rewrite (IH 0%nat m).
Qed.

(** For bounds that are not negative the slice [s[offset:offset+length]]
    holds the [length] bytes from [offset] on, fewer at the end of [s]. *)
Lemma py_slice_substring s offset len :
  0 ≤ offset → 0 ≤ len →
  py_slice s offset (offset + len)
  = substring (Z.to_nat offset) (Z.to_nat len) s.
Proof.
  intros Ho Hl. unfold py_slice, list_slice. rewrite substring_take_drop.
  set (l := list_ascii_of_string s). f_equal.
  rewrite !clamp_index_nonneg by lia.
  destruct (Z.le_gt_cases offset (Z.of_nat (length l))) as [Hin|Hout].
  - replace (Z.min offset (Z.of_nat (length l))) with offset by lia.
    destruct (Z.le_gt_cases (offset + len) (Z.of_nat (length l))).
    + f_equal. lia.
    + rewrite !take_ge; [done | rewrite length_drop; lia
                         | rewrite length_drop; lia].
  - rewrite !drop_ge by lia. by rewrite !take_nil.
Qed.

(** ** Resolution of decoded entries *)

Lemma entries_from_file_index {Instr : Type} (self : SolidityContract Instr)
    fr srcmap :
  Forall (λ m,
    SourceMapping.solidity_file_idx m = -1 ∨
    - Z.of_nat (length (solidity_files self))
      ≤ SourceMapping.solidity_file_idx m
      < Z.of_nat (length (solidity_files self)))
    (entries_from self fr srcmap).1.
Proof.
  apply entries_from_Forall. intros fr0 item fr' m Hb.
  apply loop_body_inv in Hb as (o & l & i & _ & _ & Ht & _ & Hc).
  assert (∃ b, classified self m = Return b) as [b Hb]
    by (destruct Hc as [[? _]|[? _]]; eauto).
  apply is_autogenerated_returns in Hb as [?|[f Hf]]; [by left|].
  right. by apply py_index_Return in Hf as [? _].
Qed.

(** X5. Resolution composes with decoding: over a list of files that is not
    empty, every entry the decoder has appended to an empty list resolves.
    For an address whose index lies within the list, [get_source_info]
    returns the name of a file of the list, with the line number and the
    token of the entry at that index, even when the decoding itself was cut
    short by an exception. *)
Theorem decoded_entries_resolve :
  ∀ (Instr : Type) (get_instruction_index : list Instr → Z → result (option Z))
    (decode_ignore : string → string)
    (self self' : SolidityContract Instr) srcmap constructor r address index,
    selected_mappings constructor self = [] →
    solidity_files self ≠ [] →
    _get_solc_mappings self srcmap constructor = (self', r) →
    get_instruction_index
      (instruction_list (if constructor then creation_disassembly self'
                         else disassembly self')) address
    = Return (Some index) →
    - Z.of_nat (length (selected_mappings constructor self')) ≤ index
      < Z.of_nat (length (selected_mappings constructor self')) →
    ∃ m file,
      py_index (selected_mappings constructor self') index = Return m ∧
      file ∈ solidity_files self' ∧
      get_source_info get_instruction_index decode_ignore self' address
        constructor
      = Return (SourceCodeInfo.mk (filename file) (SourceMapping.lineno m)
                  (decode_ignore
                     (py_slice (data file) (SourceMapping.offset m)
                        (SourceMapping.offset m + SourceMapping.length m)))
                  (SourceMapping.solc_mapping m)).
Proof.
  intros Instr gii dec self self' srcmap c r address index Hnil Hne Hd Hg Hi.
  apply get_solc_mappings_spec in Hd as (Hf & Hsel & _).
  rewrite Hnil in Hsel. simpl in Hsel.
  destruct (py_index_in_range _ _ Hi) as [m Hm].
  pose proof (entries_from_file_index self initial_frame srcmap) as HF.
  rewrite Forall_forall in HF.
  assert (m ∈ (entries_from self initial_frame srcmap).1) as Hin
    by (rewrite <- Hsel; by apply py_index_Return in Hm as [_ ?]).
  assert (∃ file, py_index (solidity_files self')
                    (SourceMapping.solidity_file_idx m) = Return file)
    as [file Hfile].
  { rewrite Hf. apply py_index_in_range.
    assert (length (solidity_files self) ≠ 0%nat)
      by (destruct (solidity_files self); [done | simpl; lia]).
    destruct (HF m Hin) as [->|?]; lia. }
  exists m, file. split; [done|]. split.
  { by apply py_index_Return in Hfile as [_ ?]. }
  unfold get_source_info. fold (selected_mappings c self').
  rewrite Hg. simpl. rewrite Hm. simpl. by rewrite Hfile.
Qed.

Lemma decoded_entries_resolve_witness :
  ∃ m file,
    py_index (mappings contract_of_one_token) 0 = Return m ∧
    file ∈ two_files ∧
    get_source_info index_zero id contract_of_one_token 0 false
    = Return (SourceCodeInfo.mk (filename file) (SourceMapping.lineno m)
                (py_slice (data file) (SourceMapping.offset m)
                   (SourceMapping.offset m + SourceMapping.length m))
                (SourceMapping.solc_mapping m)).
Proof.
  apply (decoded_entries_resolve unit index_zero id
           {| solidity_files := two_files; mappings := [];
              constructor_mappings := []; disassembly := one_instruction;
              creation_disassembly := empty_disassembly |}
           contract_of_one_token ["24:10:0"] false (Return tt) 0 0).
  - reflexivity.
  - discriminate.
  - vm_compute. reflexivity.
  - reflexivity.
  - simpl. lia.
Defined.

(** X6. For an entry whose offset and length are not negative, the location
    [get_source_info] returns holds the decoding of the [length] bytes of
    the file from byte [offset] on (fewer when the file ends before), under
    the name of the file the entry's index selects, with the line number
    and the token of the entry. *)
Theorem source_snippet :
  ∀ (Instr : Type) (get_instruction_index : list Instr → Z → result (option Z))
    (decode_ignore : string → string)
    (self : SolidityContract Instr) address constructor m file,
    selected_entry get_instruction_index self address constructor = Return m →
    py_index (solidity_files self) (SourceMapping.solidity_file_idx m)
    = Return file →
    0 ≤ SourceMapping.offset m → 0 ≤ SourceMapping.length m →
    get_source_info get_instruction_index decode_ignore self address constructor
    = Return (SourceCodeInfo.mk (filename file) (SourceMapping.lineno m)
                (decode_ignore
                   (substring (Z.to_nat (SourceMapping.offset m))
                      (Z.to_nat (SourceMapping.length m)) (data file)))
                (SourceMapping.solc_mapping m)).
Proof.
  intros Instr gii dec self address c m file Hm Hfile Ho Hl.
  unfold selected_entry in Hm. unfold get_source_info.
  fold (selected_mappings c self).
  destruct (gii _ address) as [index|e]; [|done]. simpl in *.
  rewrite Hm. simpl. rewrite Hfile. simpl.
  by rewrite py_slice_substring.
Qed.

Lemma source_snippet_witness :
  get_source_info index_zero id contract_of_one_token 0 false
  = Return (SourceCodeInfo.mk "a.sol" (Some 2) "contract C" "24:10:0").
Proof.
  apply (source_snippet unit index_zero id contract_of_one_token 0 false
           (SourceMapping.mk 0 24 10 (Some 2) "24:10:0") file_a).
  - reflexivity.
  - reflexivity.
  - simpl. lia.
  - simpl. lia.
Defined.

(** * Further properties of the extraction *)

Lemma add_contract_source_elem source_map child source_map' :
  add_contract_source source_map child = Return source_map' →
  ∀ h, h ∈ source_map' ↔ h ∈ source_map ∨ contributes child h.
Proof.
  unfold add_contract_source, contributes.
  destruct (getitem child "attributes") as [attributes|e]; [|done]; simpl.
  destruct (contains "contractKind" attributes) as [[]|e] eqn:Hc; [| |done];
    simpl.
  - destruct (getitem child "src") as [src|e]; [|done]; simpl.
    destruct (hash_key src) as [key|e] eqn:Hk; [|done]; simpl.
    intros [= <-] h. rewrite elem_of_union, elem_of_singleton. split.
    + intros [->|?]; [right; by exists attributes, src | by left].
    + intros [?|(a & s & [= <-] & _ & [= <-] & Hh)]; [by right|].
      left. congruence.
  - intros [= <-] h. split; [by left|].
    intros [?|(a & s & [= <-] & ? & _)]; [done | congruence].
Qed.

Lemma for_children_elem source_map children result :
  for_children source_map children = Return result →
  ∀ h, h ∈ result ↔
       h ∈ source_map ∨ ∃ child, child ∈ children ∧ contributes child h.
Proof.
  revert source_map. induction children as [|child rest IH];
    intros source_map; simpl.
  - intros [= <-] h. split; [by left|]. intros [?|(c & Hc & _)]; [done|].
    by apply elem_of_nil in Hc.
  - destruct (add_contract_source source_map child) as [source_map'|e] eqn:Ha;
      [|done]; simpl.
    intros Hr h. rewrite (IH _ Hr h), (add_contract_source_elem _ _ _ Ha h).
    split.
    + intros [[?|?]|(c & Hc & ?)]; [by left | |].
      * right. exists child. split; [left | done].
      * right. exists c. split; [by right | done].
    + intros [?|(c & Hc & ?)]; [by left; left|].
      apply elem_of_cons in Hc as [->|Hc]; [by left; right|].
      right. by exists c.
Qed.

(** X7. Whenever the extraction returns a set, with no assumption on the
    form of the declarations, the set holds exactly the [src] values of the
    declarations whose [attributes] contain [contractKind]: nothing else is
    in it and none of them is missing. *)
Theorem extraction_is_exact :
  ∀ ast source_map,
    get_full_contract_sources ast = Return source_map →
    ∃ children items,
      getitem ast "children" = Return children ∧
      iterate children = Return items ∧
      ∀ h, h ∈ source_map ↔ ∃ child, child ∈ items ∧ contributes child h.
Proof.
  intros ast source_map. unfold get_full_contract_sources.
  destruct (getitem ast "children") as [children|e]; [|done]; simpl.
  destruct (iterate children) as [items|e] eqn:Hi; [|done]; simpl.
  intros Hr. exists children, items. split_and!; [done | done |].
  intros h. rewrite (for_children_elem _ _ _ Hr h). split; [|by right].
  intros [Hempty|?]; [|done]. by apply not_elem_of_empty in Hempty.
Qed.

Lemma extraction_is_exact_witness :
  ∃ children items,
    getitem ast_well_formed "children" = Return children ∧
    iterate children = Return items ∧
    ∀ h, h ∈ ({[ HStr "24:37:0" ]} : gset hashable) ↔
         ∃ child, child ∈ items ∧ contributes child h.
Proof.
  apply (extraction_is_exact ast_well_formed {[ HStr "24:37:0" ]}).
  vm_compute. reflexivity.
Defined.

(** * Tokens in canonical form *)

(** ** [int] reads back what [str] writes *)

Lemma lstrip_uint d :
  lstrip (NilEmpty.string_of_uint d) = NilEmpty.string_of_uint d.
Proof. by destruct d. Qed.

Lemma rstrip_uint d :
  rstrip (NilEmpty.string_of_uint d) = NilEmpty.string_of_uint d.
Proof.
  induction d as [|d IH|d IH|d IH|d IH|d IH|d IH|d IH|d IH|d IH|d IH];
    [done|..]; cbn [NilEmpty.string_of_uint rstrip]; rewrite IH;
    by destruct (NilEmpty.string_of_uint d).
Qed.

Lemma count_colon_uint d : count (NilEmpty.string_of_uint d) ":" = 0.
Proof.
  induction d as [|d IH|d IH|d IH|d IH|d IH|d IH|d IH|d IH|d IH|d IH];
    [done|..]; cbn [NilEmpty.string_of_uint count]; by rewrite IH.
Qed.

Lemma int_digits_step a s acc d after_digit :
  Ascii.eqb a "_" = false → digit_val a = Some d →
  int_digits (String a s) acc after_digit = int_digits s (10 * acc + d) true.
Proof. intros Hu Hd. cbn [int_digits]. by rewrite Hu, Hd. Qed.

Lemma int_digits_uint_acc d acc :
  int_digits (NilEmpty.string_of_uint d) (Z.pos acc) true
  = Some (Z.pos (Pos.of_uint_acc d acc)).
Proof.
  revert acc.
  induction d as [|d IH|d IH|d IH|d IH|d IH|d IH|d IH|d IH|d IH|d IH];
    intros acc; [done|..]; cbn [NilEmpty.string_of_uint Pos.of_uint_acc];
    (erewrite int_digits_step; [|reflexivity|vm_compute; reflexivity]);
    rewrite <- IH; f_equal; lia.
Qed.

Lemma int_digits_uint d :
  int_digits (NilEmpty.string_of_uint d) 0 true
  = Some (Z.of_N (Pos.of_uint d)).
Proof.
  induction d as [|d IH|d IH|d IH|d IH|d IH|d IH|d IH|d IH|d IH|d IH];
    [done|..]; cbn [NilEmpty.string_of_uint Pos.of_uint];
    (erewrite int_digits_step; [|reflexivity|vm_compute; reflexivity]);
    [exact IH|..]; cbn [Z.of_N]; rewrite <- int_digits_uint_acc; f_equal.
Qed.

Lemma int_digits_uint_start d :
  d ≠ Decimal.Nil →
  int_digits (NilEmpty.string_of_uint d) 0 false
  = Some (Z.of_N (Pos.of_uint d)).
Proof.
  intros Hd. rewrite <- int_digits_uint.
  destruct d; [done|..]; cbn [NilEmpty.string_of_uint];
    (erewrite (int_digits_step _ _ _ _ false);
       [|reflexivity|vm_compute; reflexivity]);
    (erewrite (int_digits_step _ _ _ _ true);
       [|reflexivity|vm_compute; reflexivity]); done.
Qed.

Lemma int_literal_uint d :
  d ≠ Decimal.Nil →
  int_literal (NilEmpty.string_of_uint d) = Some (Z.of_N (Pos.of_uint d)).
Proof.
  intros Hd. unfold int_literal. rewrite lstrip_uint, rstrip_uint.
  rewrite <- (int_digits_uint_start d Hd). by destruct d.
Qed.

Lemma int_literal_minus_uint d :
  d ≠ Decimal.Nil →
  int_literal (String "-" (NilEmpty.string_of_uint d))
  = Some (- Z.of_N (Pos.of_uint d)).
Proof.
  intros Hd. unfold int_literal. cbn [lstrip]. change (is_space "-") with false.
  cbn [rstrip]. rewrite rstrip_uint.
  destruct (NilEmpty.string_of_uint d) eqn:Hs; [by destruct d|].
  rewrite <- Hs, (int_digits_uint_start d Hd). done.
Qed.

Lemma str_pos p : str (Z.pos p) = NilEmpty.string_of_uint (Pos.to_uint p).
Proof.
  unfold str. cbn [Z.to_int NilZero.string_of_int].
  pose proof (DecimalPos.Unsigned.to_uint_nonnil p).
  by destruct (Pos.to_uint p).
Qed.

Lemma str_neg p :
  str (Z.neg p) = String "-" (NilEmpty.string_of_uint (Pos.to_uint p)).
Proof.
  unfold str. cbn [Z.to_int NilZero.string_of_int].
  pose proof (DecimalPos.Unsigned.to_uint_nonnil p).
  by destruct (Pos.to_uint p).
Qed.

(** [int(str(n)) == n]. *)
Lemma int_str n : int (str n) = Return n.
Proof.
  unfold int. destruct n as [|p|p].
  - done.
  - rewrite str_pos, int_literal_uint
      by apply DecimalPos.Unsigned.to_uint_nonnil.
    by rewrite DecimalPos.Unsigned.of_to.
  - rewrite str_neg, int_literal_minus_uint
      by apply DecimalPos.Unsigned.to_uint_nonnil.
    by rewrite DecimalPos.Unsigned.of_to.
Qed.

Lemma count_colon_str n : count (str n) ":" = 0.
Proof.
  destruct n as [|p|p]; [done| |].
  - rewrite str_pos. apply count_colon_uint.
  - rewrite str_neg. cbn [count]. by rewrite count_colon_uint.
Qed.

Lemma str_not_empty n : (0 <? String.length (str n))%nat = true.
Proof.
  destruct n as [|p|p]; [done| |by rewrite str_neg].
  rewrite str_pos. pose proof (DecimalPos.Unsigned.to_uint_nonnil p).
  by destruct (Pos.to_uint p).
Qed.

Lemma split_no_sep sep s : count s sep = 0 → split sep s = [s].
Proof.
  induction s as [|a s IH]; [done|]. cbn [count split].
  pose proof (count_nonneg s sep).
  destruct (Ascii.eqb a sep); [lia|]. intros Hc. by rewrite IH by lia.
Qed.

Lemma split_append sep s1 s2 :
  count s1 sep = 0 → split sep (s1 +:+ String sep s2) = s1 :: split sep s2.
Proof.
  induction s1 as [|a s1 IH]; simpl.
  - intros _. by rewrite Ascii.eqb_refl.
  - pose proof (count_nonneg s1 sep).
    destruct (Ascii.eqb a sep); [lia|]. intros Hc. by rewrite IH by lia.
Qed.

Lemma split_format_src offset len idx :
  split ":" (format_src offset len idx) = [str offset; str len; str idx].
Proof.
  unfold format_src.
  change (":" +:+ ?s) with (String ":" s).
  rewrite split_append by apply count_colon_str.
  change (":" +:+ ?s) with (String ":" s).
  rewrite split_append by apply count_colon_str.
  by rewrite split_no_sep by apply count_colon_str.
Qed.

Lemma format_src_not_empty offset len idx : format_src offset len idx ≠ "".
Proof.
  intros He. pose proof (split_format_src offset len idx) as Hs.
  by rewrite He in Hs.
Qed.

Lemma assign_field_str mapping (k : nat) n v :
  mapping !! k = Some (str n) → assign_field mapping k v = Return (Some n).
Proof.
  intros Hk. unfold assign_field. by rewrite Hk, str_not_empty, int_str.
Qed.

(** X8. Format and parse agree. A token written as the decimal offset,
    length and file index joined by colons (the form of the [src] strings
    of the AST) decodes, from any frame, to the entry of exactly these
    three integers whenever the file index is [-1] or selects a file; the
    entry has no line number exactly when the triple is classified, so a
    token that is itself a range recorded for its file never gets a line
    number. *)
Theorem canonical_token :
  ∀ (Instr : Type) (self : SolidityContract Instr) fr offset len idx,
    (idx = -1 ∨ ∃ file, py_index (solidity_files self) idx = Return file) →
    ∃ lineno,
      loop_body self fr (format_src offset len idx)
      = Return ({| v_offset := Some offset; v_length := Some len;
                   v_idx := Some idx;
                   v_prev_item := format_src offset len idx |},
                SourceMapping.mk idx offset len lineno
                  (format_src offset len idx)) ∧
      (lineno = None ↔
       _is_autogenerated_code self offset len idx = Return true) ∧
      (∀ file, py_index (solidity_files self) idx = Return file →
               HStr (format_src offset len idx) ∈ full_contract_source file →
               lineno = None).
Proof.
  intros Instr self fr offset len idx Hi.
  assert (effective_item fr (format_src offset len idx)
          = format_src offset len idx) as He.
  { unfold effective_item. rewrite bool_decide_eq_false_2; [done|].
    apply format_src_not_empty. }
  destruct (loop_body_completes self fr (format_src offset len idx)
              offset len idx) as [lineno Hb].
  { rewrite He, split_format_src. unfold assign_fields.
    rewrite (assign_field_str _ 0 offset) by done. simpl.
    rewrite (assign_field_str _ 1 len) by done. simpl.
    by rewrite (assign_field_str _ 2 idx) by done. }
  { done. }
  rewrite He in Hb. exists lineno. split; [done|].
  apply loop_body_inv in Hb as (o & l & i & _ & _ & Ht & _ & Hc).
  unfold classified in Hc. simpl in Hc.
  assert (lineno = None ↔
          _is_autogenerated_code self offset len idx = Return true) as Hiff.
  { destruct Hc as [[Hc ->]|(Hc & n & _ & ->)]; [done|].
    split; [done | congruence]. }
  split; [done|]. intros file Hf Hin. apply Hiff.
  unfold _is_autogenerated_code. destruct (idx =? -1); [done|].
  rewrite Hf. simpl. by rewrite bool_decide_eq_true_2.
Qed.

Lemma canonical_token_witness :
  ∃ lineno,
    loop_body (new_contract two_files) initial_frame (format_src 24 37 0)
    = Return ({| v_offset := Some 24; v_length := Some 37; v_idx := Some 0;
                 v_prev_item := format_src 24 37 0 |},
              SourceMapping.mk 0 24 37 lineno (format_src 24 37 0)) ∧
    (lineno = None ↔
     _is_autogenerated_code (new_contract two_files) 24 37 0 = Return true) ∧
    (∀ file, py_index two_files 0 = Return file →
             HStr (format_src 24 37 0) ∈ full_contract_source file →
             lineno = None).
Proof.
  apply (canonical_token unit (new_contract two_files) initial_frame 24 37 0).
  right. exists file_a. reflexivity.
Defined.

(** An iteration whose three variables are bound and whose file index
    selects a file completes, whatever the offset. *)
Lemma loop_body_any_offset {Instr : Type} (self : SolidityContract Instr)
    fr item o l i file :
  assign_fields fr (split ":" (effective_item fr item))
  = Return (Some o, Some l, Some i) →
  py_index (solidity_files self) i = Return file →
  ∃ lineno,
    loop_body self fr item
    = Return ({| v_offset := Some o; v_length := Some l; v_idx := Some i;
                 v_prev_item := effective_item fr item |},
              SourceMapping.mk i o l lineno (effective_item fr item)) ∧
    (lineno = None ∨
     ∃ n, lineno = Some n ∧
          1 ≤ n ≤ count (data file) "010" + 1 ∧
          (Z.of_nat (String.length (data file)) ≤ o →
           n = count (data file) "010" + 1)).
Proof.
  intros Ha Hf.
  destruct (loop_body_completes self fr item o l i Ha) as [lineno Hb];
    [right; by exists file|].
  exists lineno. split; [done|].
  apply loop_body_inv in Hb
    as (o' & l' & i' & _ & _ & Ht & _ & [[_ Hnone]|(_ & n & Hl & Hsome)]);
    simpl in *; [by left|].
  injection Ht as <- <- <-.
  right. exists n. split; [done|].
  unfold line_of in Hl. rewrite Hf in Hl. simpl in Hl. injection Hl as <-.
  pose proof (count_nonneg (py_slice (data file) 0 o) "010").
  pose proof (count_py_slice_le (data file) 0 o "010").
  split; [lia|]. intros Ho. by rewrite py_slice_whole.
Qed.

(** X4. Whatever the offset of a token, negative or past the end of the
    file, a line number the decoder records lies between 1 and the number
    of newlines of the file plus one, and an offset at or past the end of
    the file gets that last line number. Such an offset is no error: an
    iteration whose three variables are bound and whose file index selects
    a file completes and appends its entry whatever the offset, and the
    map of the single token written for an offset at or past the end of
    the file decodes to one entry, with no line number or the last one. *)
Theorem line_number_bounds :
  (∀ (Instr : Type) (self self' : SolidityContract Instr) srcmap constructor r,
    _get_solc_mappings self srcmap constructor = (self', r) →
    ∃ new,
      selected_mappings constructor self'
      = selected_mappings constructor self ++ new ∧
      ∀ m n, m ∈ new → SourceMapping.lineno m = Some n →
        ∃ file,
          py_index (solidity_files self) (SourceMapping.solidity_file_idx m)
          = Return file ∧
          1 ≤ n ≤ count (data file) "010" + 1 ∧
          (Z.of_nat (String.length (data file)) ≤ SourceMapping.offset m →
           n = count (data file) "010" + 1)) ∧
  (∀ (Instr : Type) (self : SolidityContract Instr) fr item o l i file,
    assign_fields fr (split ":" (effective_item fr item))
    = Return (Some o, Some l, Some i) →
    py_index (solidity_files self) i = Return file →
    ∃ lineno,
      loop_body self fr item
      = Return ({| v_offset := Some o; v_length := Some l; v_idx := Some i;
                   v_prev_item := effective_item fr item |},
                SourceMapping.mk i o l lineno (effective_item fr item)) ∧
      (lineno = None ∨
       ∃ n, lineno = Some n ∧
            1 ≤ n ≤ count (data file) "010" + 1 ∧
            (Z.of_nat (String.length (data file)) ≤ o →
             n = count (data file) "010" + 1))) ∧
  (∀ (Instr : Type) (self : SolidityContract Instr) constructor offset len idx
     file,
    py_index (solidity_files self) idx = Return file →
    Z.of_nat (String.length (data file)) ≤ offset →
    ∃ self' lineno,
      _get_solc_mappings self [format_src offset len idx] constructor
      = (self', Return tt) ∧
      selected_mappings constructor self'
      = selected_mappings constructor self
        ++ [SourceMapping.mk idx offset len lineno (format_src offset len idx)] ∧
      (lineno = None ∨ lineno = Some (count (data file) "010" + 1))).
Proof.
  split; [|split].
  - intros Instr self self' srcmap c r Hd.
    apply get_solc_mappings_spec in Hd as (_ & Hsel & _).
    eexists. split; [exact Hsel|].
    pose proof (entries_from_Forall
      (λ m, ∀ n, SourceMapping.lineno m = Some n →
         ∃ file,
           py_index (solidity_files self) (SourceMapping.solidity_file_idx m)
           = Return file ∧
           1 ≤ n ≤ count (data file) "010" + 1 ∧
           (Z.of_nat (String.length (data file)) ≤ SourceMapping.offset m →
            n = count (data file) "010" + 1))
      self initial_frame srcmap) as HF.
    rewrite Forall_forall in HF. intros m n Hm. revert n. apply HF; [|done].
    clear. intros fr0 item fr' m Hb n Hn.
    apply loop_body_inv in Hb
      as (o & l & i & _ & _ & Ht & _ & [[_ Hnone]|(_ & n' & Hl & Hsome)]);
      [congruence|].
    injection Ht as <- _ <-. rewrite Hsome in Hn. injection Hn as ->.
    unfold line_of in Hl. destruct (py_index _ _) as [file|e]; [|done].
    injection Hl as <-. exists file. split; [done|].
    pose proof (count_nonneg (py_slice (data file) 0 (SourceMapping.offset m))
                  "010").
    pose proof (count_py_slice_le (data file) 0 (SourceMapping.offset m) "010").
    split; [lia|]. intros Ho. by rewrite py_slice_whole.
  - intros Instr self fr item o l i file. apply loop_body_any_offset.
  - intros Instr self c offset len idx file Hf Ho.
    assert (effective_item initial_frame (format_src offset len idx)
            = format_src offset len idx) as He
      by apply effective_item_initial.
    destruct (loop_body_any_offset self initial_frame
                (format_src offset len idx) offset len idx file)
      as (lineno & Hb & Hline); [|done|].
    { rewrite He, split_format_src. unfold assign_fields.
      rewrite (assign_field_str _ 0 offset) by done. simpl.
      rewrite (assign_field_str _ 1 len) by done. simpl.
      by rewrite (assign_field_str _ 2 idx) by done. }
    rewrite He in Hb.
    exists (append_mapping c self
              (SourceMapping.mk idx offset len lineno
                 (format_src offset len idx))), lineno.
    split_and!.
    + unfold _get_solc_mappings. simpl. by rewrite Hb.
    + by destruct c.
    + destruct Hline as [->|(n & -> & _ & Hn)]; [by left|].
      right. by rewrite (Hn Ho).
Qed.

Lemma line_number_bounds_witness :
  ∃ self' lineno,
    _get_solc_mappings (new_contract two_files) [format_src 999 0 1] false
    = (self', Return tt) ∧
    mappings self'
    = [] ++ [SourceMapping.mk 1 999 0 lineno (format_src 999 0 1)] ∧
    (lineno = None ∨ lineno = Some (count (data file_b) "010" + 1)).
Proof.
  apply (proj2 (proj2 line_number_bounds) unit (new_contract two_files) false
           999 0 1 file_b).
  - reflexivity.
  - simpl. lia.
Defined.

(** * The recorded tokens as a map *)

Lemma concat_split sep s :
  String.concat (String sep "") (split sep s) = s.
Proof.
  induction s as [|a s IH]; [done|]. cbn [split].
  pose proof (split_not_nil sep s) as Hne.
  destruct (Ascii.eqb_spec a sep) as [->|Hsep].
  - destruct (split sep s) as [|field fields]; [done|].
    change (String.concat (String sep "") ("" :: field :: fields))
      with (String sep (String.concat (String sep "") (field :: fields))).
    by rewrite IH.
  - destruct (split sep s) as [|field [|field' fields]]; [done| |].
    + simpl in *. by rewrite IH.
    + change (String.concat (String sep "") (String a field :: field' :: fields))
        with (String a (String.concat (String sep "") (field :: field' :: fields))).
      by rewrite IH.
Qed.

Lemma effective_item_idempotent fr item :
  effective_item fr (effective_item fr item) = effective_item fr item.
Proof.
  unfold effective_item. repeat case_bool_decide; congruence.
Qed.

Lemma loop_body_effective {Instr : Type} (self : SolidityContract Instr) fr item :
  loop_body self fr (effective_item fr item) = loop_body self fr item.
Proof. unfold loop_body. by rewrite effective_item_idempotent. Qed.

Lemma entries_from_recorded {Instr : Type} (self : SolidityContract Instr)
    fr srcmap ms fr' :
  entries_from self fr srcmap = (ms, Return fr') →
  entries_from self fr (SourceMapping.solc_mapping <$> ms) = (ms, Return fr').
Proof.
  revert fr ms. induction srcmap as [|item rest IH]; intros fr ms; simpl.
  - by intros [= <- <-].
  - destruct (loop_body self fr item) as [[fr1 m]|e] eqn:Hb; [|done].
    destruct (entries_from self fr1 rest) as [ms1 r1] eqn:Hrest.
    intros [= <- ->]. simpl.
    pose proof Hb as Hinv.
    apply loop_body_inv in Hinv as (_ & _ & _ & _ & _ & _ & -> & _).
    rewrite loop_body_effective, Hb. cbn beta iota.
    change (list_fmap _ _ SourceMapping.solc_mapping ms1)
      with (SourceMapping.solc_mapping <$> ms1).
    by rewrite (IH _ _ Hrest).
Qed.

Lemma entries_from_no_empty {Instr : Type} (self : SolidityContract Instr)
    fr srcmap ms fr' :
  no_empty_token srcmap = true →
  entries_from self fr srcmap = (ms, Return fr') →
  SourceMapping.solc_mapping <$> ms = srcmap.
Proof.
  revert fr ms. induction srcmap as [|item rest IH]; intros fr ms; simpl.
  - by intros _ [= <- _].
  - intros [Hi Hrest]%andb_prop.
    destruct (loop_body self fr item) as [[fr1 m]|e] eqn:Hb; [|done].
    destruct (entries_from self fr1 rest) as [ms1 r1] eqn:Hms.
    intros [= <- ->]. simpl.
    apply loop_body_inv in Hb as (_ & _ & _ & _ & _ & _ & -> & _).
    change (list_fmap _ _ SourceMapping.solc_mapping ms1)
      with (SourceMapping.solc_mapping <$> ms1).
    rewrite (IH _ _ Hrest Hms). f_equal.
    unfold effective_item. rewrite bool_decide_eq_false_2; [done|].
    intros ->. done.
Qed.

(** X9. The tokens recorded in the entries form a map of their own. When a
    raw map without empty token has been decoded into an empty list, the
    recorded tokens joined by semicolons are the raw map again; and for any
    map decoded into an empty list, decoding the list of recorded tokens
    completes with the very same entries. *)
Theorem recorded_tokens_round_trip :
  ∀ (Instr : Type) (self self1 : SolidityContract Instr) constructor,
    selected_mappings constructor self = [] →
    (∀ raw,
       _get_solc_mappings self (split ";" raw) constructor
       = (self1, Return tt) →
       no_empty_token (split ";" raw) = true →
       String.concat ";"
         (SourceMapping.solc_mapping <$> selected_mappings constructor self1)
       = raw) ∧
    (∀ srcmap,
       _get_solc_mappings self srcmap constructor = (self1, Return tt) →
       ∃ self2,
         _get_solc_mappings self
           (SourceMapping.solc_mapping <$> selected_mappings constructor self1)
           constructor
         = (self2, Return tt) ∧
         selected_mappings constructor self2
         = selected_mappings constructor self1).
Proof.
  intros Instr self self1 c Hnil. split.
  - intros raw Hd Hne.
    apply get_solc_mappings_spec in Hd as (_ & Hsel & _ & _ & _ & Hr).
    rewrite Hnil in Hsel. simpl in Hsel. rewrite Hsel.
    destruct (entries_from self initial_frame (split ";" raw))
      as [ms [fr'|e]] eqn:He; [|done]. simpl.
    rewrite (entries_from_no_empty _ _ _ _ _ Hne He). apply concat_split.
  - intros srcmap Hd.
    apply get_solc_mappings_spec in Hd as (_ & Hsel & _ & _ & _ & Hr).
    rewrite Hnil in Hsel. simpl in Hsel. rewrite Hsel.
    destruct (entries_from self initial_frame srcmap)
      as [ms [fr'|e]] eqn:He; [|done]. simpl.
    apply entries_from_recorded in He.
    destruct (_get_solc_mappings self (SourceMapping.solc_mapping <$> ms) c)
      as [self2 r2] eqn:Hd2.
    apply get_solc_mappings_spec in Hd2 as (_ & Hsel2 & _ & _ & _ & ->).
    rewrite He in Hsel2. rewrite He. simpl in *.
    exists self2. split; [done|]. by rewrite Hsel2, Hnil.
Qed.

Lemma recorded_tokens_round_trip_witness :
  String.concat ";"
    (SourceMapping.solc_mapping
       <$> mappings (_get_solc_mappings (new_contract two_files)
                       (split ";" "10:5:0;15::1") false).1)
  = "10:5:0;15::1".
Proof.
  apply (proj1 (recorded_tokens_round_trip unit (new_contract two_files)
                  (_get_solc_mappings (new_contract two_files)
                     (split ";" "10:5:0;15::1") false).1
                  false eq_refl) "10:5:0;15::1").
  - vm_compute. reflexivity.
  - vm_compute. reflexivity.
Defined.

(** * The choice of the contract in [__init__] *)

(** ** The order of the keys *)

Lemma ascii_compare_lt_trans a b c :
  Ascii.compare a b = Lt → Ascii.compare b c = Lt → Ascii.compare a c = Lt.
Proof.
  unfold Ascii.compare. rewrite !N.compare_lt_iff. lia.
Qed.

Lemma string_leb_refl s : String.leb s s = true.
Proof.
  unfold String.leb. induction s as [|a s IH]; simpl; [done|].
  unfold Ascii.compare. by rewrite N.compare_refl.
Qed.

Lemma string_leb_trans s1 s2 s3 :
  String.leb s1 s2 = true → String.leb s2 s3 = true → String.leb s1 s3 = true.
Proof.
  unfold String.leb. revert s2 s3.
  induction s1 as [|a s1 IH]; intros [|b s2] [|c s3]; simpl; try done.
  destruct (Ascii.compare a b) eqn:Hab; [| |done].
  - apply Ascii.compare_eq_iff in Hab as ->.
    destruct (Ascii.compare b c); [apply IH | done | done].
  - destruct (Ascii.compare b c) eqn:Hbc; [| |done].
    + apply Ascii.compare_eq_iff in Hbc as <-. by rewrite Hab.
    + by rewrite (ascii_compare_lt_trans _ _ _ Hab Hbc).
Qed.

Lemma insert_sorted_perm x l : insert_sorted x l ≡ₚ x :: l.
Proof.
  induction l as [|y l IH]; simpl; [done|].
  destruct (String.leb x.1 y.1); [done|]. rewrite IH. apply Permutation_swap.
Qed.

Lemma sorted_perm l : sorted l ≡ₚ l.
Proof.
  induction l as [|x l IH]; simpl; [done|].
  by rewrite insert_sorted_perm, IH.
Qed.

Definition key_le (x y : string * json) : Prop := String.leb x.1 y.1 = true.

Lemma insert_sorted_sorted x l :
  StronglySorted key_le l → StronglySorted key_le (insert_sorted x l).
Proof.
  induction l as [|y l IH]; simpl; intros Hs.
  - by repeat constructor.
  - apply StronglySorted_cons in Hs as [Hy Hs].
    destruct (String.leb x.1 y.1) eqn:Hxy.
    + apply StronglySorted_cons. split; [|by apply StronglySorted_cons].
      constructor; [done|]. eapply Forall_impl; [exact Hy|].
      intros z Hz. by eapply string_leb_trans.
    + apply StronglySorted_cons. split; [|by apply IH].
      rewrite insert_sorted_perm. constructor; [|done].
      unfold key_le. by destruct (String.leb_total x.1 y.1) as [?|?]; [congruence|].
Qed.

Lemma sorted_sorted l : StronglySorted key_le (sorted l).
Proof.
  induction l as [|x l IH]; simpl; [constructor|].
  by apply insert_sorted_sorted.
Qed.

Lemma sorted_contracts_JObj data contracts :
  getitem data "contracts" = Return (JObj contracts) →
  sorted_contracts data = Done (sorted (map_to_list contracts)).
Proof. intros Hc. unfold sorted_contracts. by rewrite Hc. Qed.

Lemma elem_of_sorted_contracts (contracts : gmap string json) key contract :
  (key, contract) ∈ sorted (map_to_list contracts) ↔
  contracts !! key = Some contract.
Proof. by rewrite sorted_perm, elem_of_map_to_list. Qed.

Lemma NoDup_sorted_contracts (contracts : gmap string json) :
  NoDup (sorted (map_to_list contracts)).*1.
Proof. rewrite sorted_perm. apply NoDup_fst_map_to_list. Qed.

Lemma list_to_map_sorted_contracts (contracts : gmap string json) :
  list_to_map (sorted (map_to_list contracts)) = contracts.
Proof.
  rewrite <- (list_to_map_to_list contracts) at 2.
  apply list_to_map_proper; [apply NoDup_sorted_contracts | apply sorted_perm].
Qed.

(** ** Keys and their two parts *)

Lemma split_app_sep sep s1 s2 :
  split sep (s1 +:+ String sep s2) = split sep s1 ++ split sep s2.
Proof.
  induction s1 as [|a s1 IH]; simpl.
  - by rewrite Ascii.eqb_refl.
  - rewrite IH. pose proof (split_not_nil sep s1).
    destruct (Ascii.eqb a sep); [done|].
    by destruct (split sep s1).
Qed.

Lemma split_singleton sep s part : split sep s = [part] → s = part.
Proof. intros Hs. by rewrite <- (concat_split sep s), Hs. Qed.

Lemma split_two sep s part1 part2 :
  split sep s = [part1; part2] → s = part1 +:+ String sep part2.
Proof. intros Hs. by rewrite <- (concat_split sep s), Hs. Qed.

Lemma split_contract_key input_file name filename name' :
  split ":" (contract_key input_file name) = [filename; name'] →
  filename = input_file ∧ name' = name.
Proof.
  unfold contract_key. change (":" +:+ name) with (String ":" name).
  rewrite split_app_sep.
  pose proof (split_not_nil ":" input_file).
  pose proof (split_not_nil ":" name).
  destruct (split ":" input_file) as [|p1 [|p1' l1]] eqn:H1; [done| |];
    destruct (split ":" name) as [|p2 [|p2' l2]] eqn:H2; try done.
  - intros [= <- <-]. by rewrite (split_singleton _ _ _ H1),
                                  (split_singleton _ _ _ H2).
  - by destruct l1.
  - by destruct l1.
Qed.

Lemma split_part_no_sep sep s part :
  part ∈ split sep s → count part sep = 0.
Proof.
  revert part. induction s as [|a s IH]; intros part; simpl.
  - by intros ->%list_elem_of_singleton.
  - destruct (Ascii.eqb a sep) eqn:Ha.
    + intros [->|?]%elem_of_cons; [done | by apply IH].
    + pose proof (split_not_nil sep s).
      destruct (split sep s) as [|field fields]; [done|].
      intros [->|?]%elem_of_cons.
      * simpl. rewrite Ha. rewrite (IH field); [done | by left].
      * apply IH. by right.
Qed.

Lemma unpack_key_Done key filename name :
  unpack_key key = Done (filename, name) ↔ split ":" key = [filename; name].
Proof.
  unfold unpack_key.
  destruct (split ":" key) as [|p1 [|p2 [|p3 l]]]; split; try done.
  - by intros [= -> ->].
  - by intros [= -> ->].
Qed.

(** ** With a name *)

Lemma for_named_lookup input_file name (pairs : list (string * json)) :
  NoDup pairs.*1 →
  (∀ key contract, (key, contract) ∈ pairs →
     ∃ filename name', split ":" key = [filename; name']) →
  for_named input_file name pairs
  = match (list_to_map pairs : gmap string json)
          !! contract_key input_file name with
    | Some contract =>
        run nonempty <- has_runtime_code contract;
        if nonempty : bool then
          run fields <- contract_fields contract; Done (Some fields)
        else Done None
    | None => Done None
    end.
Proof.
  induction pairs as [|[key contract] rest IH]; intros Hnd Hkeys; [done|].
  apply NoDup_cons in Hnd as [Hnotin Hnd].
  specialize (IH Hnd (λ k c Hin, Hkeys k c (list_elem_of_further _ _ _ Hin))).
  destruct (Hkeys key contract) as (filename & name' & Hsplit); [by left|].
  cbn [for_named]. rewrite (proj2 (unpack_key_Done _ _ _) Hsplit).
  cbn [outcome_bind]. rewrite list_to_map_cons.
  destruct (bool_decide (filename = input_file) && bool_decide (name = name'))
    eqn:Hmatch.
  - apply andb_prop in Hmatch as [->%bool_decide_eq_true ->%bool_decide_eq_true].
    apply split_two in Hsplit. fold (contract_key input_file name') in Hsplit.
    subst key. rewrite lookup_insert_eq.
    destruct (has_runtime_code contract) as [[]|e]; [done| |done].
    cbn [outcome_bind]. rewrite IH.
    by rewrite (not_elem_of_list_to_map_1 rest (contract_key input_file name')).
  - rewrite lookup_insert_ne; [done|].
    intros ->. apply split_contract_key in Hsplit as [-> ->].
    by rewrite !bool_decide_eq_true_2 in Hmatch.
Qed.

(** X10. With a name, when every key of [data["contracts"]] has two parts,
    the choice is a lookup: the contract under the key made of the input
    file, a colon and the name is chosen when it exists and has runtime
    code; without it, or without runtime code, [NoContractFoundError] is
    raised, whatever the other contracts are. The contract keeps the name
    asked for. *)
Theorem choice_by_name :
  ∀ data contracts input_file name,
    getitem data "contracts" = Return (JObj contracts) →
    two_part_keys contracts →
    name ≠ "" →
    select_contract data input_file (Some name)
    = match contracts !! contract_key input_file name with
      | Some contract =>
          run nonempty <- has_runtime_code contract;
          if nonempty : bool then
            run fields <- contract_fields contract; Done (fields, Some name)
          else Failed NoContractFoundError
      | None => Failed NoContractFoundError
      end.
Proof.
  intros data contracts input_file name Hc Hkeys Hname.
  unfold select_contract.
  replace (truth (Some name)) with true
    by (simpl; by rewrite (proj2 (String.eqb_neq _ _) Hname)).
  rewrite (sorted_contracts_JObj _ _ Hc).
  change (default "" (Some name)) with name. cbn [outcome_bind].
  rewrite for_named_lookup, list_to_map_sorted_contracts.
  - destruct (contracts !! contract_key input_file name) as [contract|];
      [|done].
    destruct (has_runtime_code contract) as [[]|e]; [|done|done].
    cbn [outcome_bind]. by destruct (contract_fields contract).
  - apply NoDup_sorted_contracts.
  - intros key contract Hin%elem_of_sorted_contracts. by eapply Hkeys.
Qed.

Lemma solc_output_contracts :
  getitem solc_output "contracts"
  = Return (JObj compiled_contracts).
Proof. reflexivity. Defined.

Lemma solc_output_two_part_keys :
  two_part_keys compiled_contracts.
Proof.
  intros key contract Hk.
  apply elem_of_map_to_list in Hk.
  let l := eval vm_compute in (map_to_list compiled_contracts) in
  change (map_to_list compiled_contracts) with l in Hk.
  repeat (apply elem_of_cons in Hk as [[= -> _]|Hk];
          [eexists _, _; vm_compute; reflexivity|]).
  by apply elem_of_nil in Hk.
Defined.

Lemma choice_by_name_witness :
  select_contract solc_output "a.sol" (Some "I") = Failed NoContractFoundError.
Proof.
  rewrite (choice_by_name solc_output _ "a.sol" "I" solc_output_contracts
             solc_output_two_part_keys ltac:(discriminate)).
  vm_compute. reflexivity.
Defined.

(** ** Without a name *)

Lemma not_matches_other_file input_file key contract filename name :
  split ":" key = [filename; name] → filename ≠ input_file →
  ¬ matches input_file key contract.
Proof. intros Hs Hne [[name' Hs'] _]. congruence. Qed.

Lemma not_matches_no_code input_file key contract :
  has_runtime_code contract = Done false → ¬ matches input_file key contract.
Proof. intros Hc [_ Hc']. congruence. Qed.

(** What the loop without a name has done when it completes. *)
Lemma for_any_inv input_file (pairs : list (string * json)) found name
    found' name' :
  for_any input_file pairs found name = Done (found', name') →
  match last pairs with
  | Some (key, _) =>
      ∃ filename nm, split ":" key = [filename; nm] ∧ name' = Some nm
  | None => name' = name
  end ∧
  ((found' = found ∧ Forall (λ p, ¬ matches input_file p.1 p.2) pairs) ∨
   ∃ pre key contract post fields,
     pairs = pre ++ (key, contract) :: post ∧
     matches input_file key contract ∧
     contract_fields contract = Done fields ∧
     found' = Some fields ∧
     Forall (λ p, ¬ matches input_file p.1 p.2) post).
Proof.
  revert found name.
  induction pairs as [|[key contract] rest IH]; intros found name.
  { simpl. intros [= <- <-]. split; [done|]. left. by split. }
  cbn [for_any].
  destruct (unpack_key key) as [[filename nm]|e] eqn:Hu; [|done].
  apply unpack_key_Done in Hu. cbn [outcome_bind].
  assert (∀ found0,
    for_any input_file rest found0 (Some nm) = Done (found', name') →
    match last ((key, contract) :: rest) with
    | Some (key0, _) =>
        ∃ filename0 nm0, split ":" key0 = [filename0; nm0] ∧ name' = Some nm0
    | None => name' = name
    end) as Hlast.
  { intros found0 Hrest. destruct (IH _ _ Hrest) as [Hl _].
    rewrite last_cons. destruct (last rest) as [[k c]|]; [done|].
    by exists filename, nm. }
  assert (∀ found0,
    ¬ matches input_file key contract →
    for_any input_file rest found0 (Some nm) = Done (found', name') →
    (found' = found0 ∧
     Forall (λ p, ¬ matches input_file p.1 p.2) ((key, contract) :: rest)) ∨
    ∃ pre key0 contract0 post fields,
      (key, contract) :: rest = pre ++ (key0, contract0) :: post ∧
      matches input_file key0 contract0 ∧
      contract_fields contract0 = Done fields ∧
      found' = Some fields ∧
      Forall (λ p, ¬ matches input_file p.1 p.2) post) as Hskip.
  { intros found0 Hno Hrest.
    destruct (IH _ _ Hrest) as [_ [[-> Hall]|(pre & k & c & post & f & -> & ?)]].
    - left. split; [done|]. by constructor.
    - right. by exists ((key, contract) :: pre), k, c, post, f. }
  case_bool_decide as Hfile.
  - destruct (has_runtime_code contract) as [[]|e] eqn:Hcode; [| |done];
      cbn [outcome_bind].
    + destruct (contract_fields contract) as [fields|e] eqn:Hfields; [|done].
      cbn [outcome_bind]. intros Hrest. split; [by eapply Hlast|].
      right.
      destruct (IH _ _ Hrest)
        as [_ [[-> Hall]|(pre & k & c & post & f & -> & ?)]].
      * exists [], key, contract, rest, fields. split_and!; try done.
        split; [|done]. exists nm. by rewrite <- Hfile.
      * by exists ((key, contract) :: pre), k, c, post, f.
    + intros Hrest. split; [by eapply Hlast|].
      apply Hskip; [|done]. by apply not_matches_no_code.
  - intros Hrest. split; [by eapply Hlast|].
    apply Hskip; [|done]. by eapply not_matches_other_file.
Qed.

Lemma sorted_last_greatest (l : list (string * json)) x y :
  StronglySorted key_le l → last l = Some x → y ∈ l → key_le y x.
Proof.
  intros Hs [l' ->]%last_Some [Hy|Hy%list_elem_of_singleton]%elem_of_app.
  - eapply StronglySorted_app_1_elem_of; [done | done | by left].
  - subst y. apply string_leb_refl.
Qed.

(** X11. Without a name, or with the empty name, a completed choice has
    taken the fields of the contract with the greatest key among those of
    the input file that have runtime code; the name it gives the contract
    is the second part of the greatest key of all, whether or not that is
    the key of the contract chosen. *)
Theorem choice_without_name :
  ∀ data contracts input_file name fields name',
    getitem data "contracts" = Return (JObj contracts) →
    truth name = false →
    select_contract data input_file name = Done (fields, name') →
    (∃ key contract,
       contracts !! key = Some contract ∧
       matches input_file key contract ∧
       contract_fields contract = Done fields ∧
       ∀ key' contract',
         contracts !! key' = Some contract' →
         matches input_file key' contract' →
         String.leb key' key = true) ∧
    (∃ key filename nm,
       is_Some (contracts !! key) ∧
       split ":" key = [filename; nm] ∧
       name' = Some nm ∧
       ∀ key', is_Some (contracts !! key') → String.leb key' key = true).
Proof.
  intros data contracts input_file name fields name' Hc Hname.
  unfold select_contract. rewrite Hname, (sorted_contracts_JObj _ _ Hc).
  cbn [outcome_bind].
  pose proof (sorted_sorted (map_to_list contracts)) as Hsorted.
  destruct (for_any input_file (sorted (map_to_list contracts)) None name)
    as [[found nm']|e] eqn:Hloop; [|done].
  cbn [outcome_bind fst snd]. destruct found as [fields'|]; [|done].
  intros [= -> ->].
  apply for_any_inv in Hloop
    as [Hlast [[? _]|(pre & key & contract & post & f & Hl & Hm & Hf & [= <-] & Hpost)]];
    [done|].
  split.
  - exists key, contract. split_and!; [|done|done|].
    + apply elem_of_sorted_contracts. rewrite Hl. set_solver.
    + intros key' contract' Hk' Hm'.
      apply elem_of_sorted_contracts in Hk'. rewrite Hl in Hk', Hsorted.
      apply elem_of_app in Hk' as [Hpre|[Heq|Hin]%elem_of_cons].
      * eapply (StronglySorted_app_1_elem_of key_le _ _ (key', contract')
                  (key, contract)); [done | done | by left].
      * injection Heq as -> _. apply string_leb_refl.
      * rewrite Forall_forall in Hpost. by destruct (Hpost _ Hin).
  - destruct (last (sorted (map_to_list contracts))) as [[kmax cmax]|]
      eqn:Hmax.
    + destruct Hlast as (filename & nm & Hs & ->).
      exists kmax, filename, nm. split_and!; [|done|done|].
      * exists cmax. apply elem_of_sorted_contracts.
        apply last_Some in Hmax as [l' ->]. set_solver.
      * intros key' [c' Hk']. apply elem_of_sorted_contracts in Hk'.
        by apply (sorted_last_greatest _ (kmax, cmax) (key', c') Hsorted).
    + apply last_None in Hmax. rewrite Hmax in Hl. by destruct pre.
Qed.

Lemma choice_without_name_witness :
  (∃ key contract,
     compiled_contracts !! key
     = Some contract ∧
     matches "a.sol" key contract ∧
     contract_fields contract
     = Done (Selection.mk (JStr "60") (JStr "6080") ["24:10:0"] ["0:6:0"]) ∧
     ∀ key' contract',
       compiled_contracts !! key'
       = Some contract' →
       matches "a.sol" key' contract' → String.leb key' key = true) ∧
  (∃ key filename nm,
     is_Some (compiled_contracts
                !! key) ∧
     split ":" key = [filename; nm] ∧
     Some "Z" = Some nm ∧
     ∀ key',
       is_Some (compiled_contracts
                  !! key') →
       String.leb key' key = true).
Proof.
  apply (choice_without_name solc_output _ "a.sol" None _ (Some "Z")
           solc_output_contracts eq_refl).
  vm_compute. reflexivity.
Defined.

(** ** No contract *)

Lemma for_any_no_match input_file (pairs : list (string * json)) found name :
  Forall (λ p, ∃ filename nm,
            split ":" p.1 = [filename; nm] ∧
            (filename = input_file → has_runtime_code p.2 = Done false))
    pairs →
  ∃ name', for_any input_file pairs found name = Done (found, name').
Proof.
  intros Hall. revert name.
  induction Hall as [|[key contract] rest (filename & nm & Hs & Hcode) _ IH];
    intros name; [by eexists|].
  simpl in Hs, Hcode.
  cbn [for_any]. rewrite (proj2 (unpack_key_Done _ _ _) Hs).
  cbn [outcome_bind]. case_bool_decide as Hfile; [|apply IH].
  rewrite (Hcode Hfile). cbn [outcome_bind]. apply IH.
Qed.

(** X12. Without a name, when every key has two parts and no contract of
    the input file has runtime code (in particular when there is no
    contract at all), [NoContractFoundError] is raised. *)
Theorem no_contract_found :
  ∀ data contracts input_file name,
    getitem data "contracts" = Return (JObj contracts) →
    truth name = false →
    two_part_keys contracts →
    (∀ key contract nm,
       contracts !! key = Some contract →
       split ":" key = [input_file; nm] →
       has_runtime_code contract = Done false) →
    select_contract data input_file name = Failed NoContractFoundError.
Proof.
  intros data contracts input_file name Hc Hname Hkeys Hcode.
  unfold select_contract. rewrite Hname, (sorted_contracts_JObj _ _ Hc).
  cbn [outcome_bind].
  destruct (for_any_no_match input_file (sorted (map_to_list contracts))
              None name) as [name' ->]; [|done].
  apply Forall_forall. intros [key contract] Hin%elem_of_sorted_contracts.
  destruct (Hkeys _ _ Hin) as (filename & nm & Hs).
  exists filename, nm. split; [done|]. intros ->. by eapply Hcode.
Qed.

Lemma no_contract_found_witness :
  select_contract solc_output_without_code "a.sol" None
  = Failed NoContractFoundError.
Proof.
  apply (no_contract_found solc_output_without_code contracts_without_code
           "a.sol" None).
  - reflexivity.
  - reflexivity.
  - intros key contract Hk. apply elem_of_map_to_list in Hk.
    let l := eval vm_compute in (map_to_list contracts_without_code) in
    change (map_to_list contracts_without_code) with l in Hk.
    repeat (apply elem_of_cons in Hk as [[= -> _]|Hk];
            [eexists _, _; vm_compute; reflexivity|]).
    by apply elem_of_nil in Hk.
  - intros key contract nm Hk Hs. apply elem_of_map_to_list in Hk.
    let l := eval vm_compute in (map_to_list contracts_without_code) in
    change (map_to_list contracts_without_code) with l in Hk.
    repeat (apply elem_of_cons in Hk as [[= -> ->]|Hk];
            [first [ vm_compute; reflexivity
                   | vm_compute in Hs; discriminate Hs ]|]).
    by apply elem_of_nil in Hk.
Defined.

Lemma unpack_key_no_colon key filename name input_file :
  count input_file ":" ≠ 0 →
  unpack_key key = Done (filename, name) →
  bool_decide (filename = input_file) = false.
Proof.
  intros Hcolon Hs%unpack_key_Done. apply bool_decide_eq_false_2. intros <-.
  apply Hcolon, (split_part_no_sep ":" key). rewrite Hs. by left.
Qed.

Lemma for_named_colon input_file name (pairs : list (string * json)) found :
  count input_file ":" ≠ 0 →
  for_named input_file name pairs = Done found → found = None.
Proof.
  intros Hcolon. induction pairs as [|[key contract] rest IH]; cbn [for_named].
  - by intros [= <-].
  - destruct (unpack_key key) as [[filename nm]|e] eqn:Hu; [|done].
    cbn [outcome_bind].
    by rewrite (unpack_key_no_colon _ _ _ _ Hcolon Hu).
Qed.

Lemma for_any_colon input_file (pairs : list (string * json)) found name
    found' name' :
  count input_file ":" ≠ 0 →
  for_any input_file pairs found name = Done (found', name') → found' = found.
Proof.
  intros Hcolon. revert name.
  induction pairs as [|[key contract] rest IH]; intros name; cbn [for_any].
  - by intros [= <- _].
  - destruct (unpack_key key) as [[filename nm]|e] eqn:Hu; [|done].
    cbn [outcome_bind].
    rewrite (unpack_key_no_colon _ _ _ _ Hcolon Hu). apply IH.
Qed.

(** X13. An input file whose path holds a colon is never found: the first
    part of a key that unpacks in two holds no colon, so no key is of that
    file and the choice never completes, with or without a name, whatever
    the compiler returned. *)
Theorem input_file_with_colon :
  ∀ data input_file name chosen,
    count input_file ":" ≠ 0 →
    select_contract data input_file name ≠ Done chosen.
Proof.
  intros data input_file name chosen Hcolon. unfold select_contract.
  destruct (sorted_contracts data) as [pairs|e]; [|by destruct (truth name)].
  destruct (truth name); cbn [outcome_bind].
  - destruct (for_named _ _ pairs) as [found|e] eqn:Hloop; [|done].
    by rewrite (for_named_colon _ _ _ _ Hcolon Hloop).
  - destruct (for_any _ pairs None name) as [[found name']|e] eqn:Hloop;
      [|done].
    by rewrite (for_any_colon _ _ _ _ _ _ Hcolon Hloop).
Qed.

Lemma input_file_with_colon_witness :
  select_contract
    (JObj {[ "contracts" :=
               JObj {[ "C:\a.sol:C" := compiled "60" "24:10:0" ]} ]})
    "C:\a.sol" (Some "C")
  ≠ Done (Selection.mk (JStr "60") (JStr "6080") ["24:10:0"] ["0:6:0"],
          Some "C").
Proof.
  apply input_file_with_colon. vm_compute. discriminate.
Defined.

(** ** The contract constructed *)

Lemma loop_body_any_contract {Instr1 Instr2 : Type}
    (self1 : SolidityContract Instr1) (self2 : SolidityContract Instr2)
    fr item :
  solidity_files self1 = solidity_files self2 →
  loop_body self1 fr item = loop_body self2 fr item.
Proof.
  intros Hf. unfold loop_body, _is_autogenerated_code, line_of.
  by rewrite Hf.
Qed.

Lemma entries_from_any_contract {Instr1 Instr2 : Type}
    (self1 : SolidityContract Instr1) (self2 : SolidityContract Instr2)
    fr srcmap :
  solidity_files self1 = solidity_files self2 →
  entries_from self1 fr srcmap = entries_from self2 fr srcmap.
Proof.
  intros Hf. revert fr. induction srcmap as [|item rest IH]; intros fr;
    simpl; [done|].
  rewrite (loop_body_any_contract self1 self2) by done.
  destruct (loop_body self2 fr item) as [[fr' m]|e]; [|done].
  by rewrite IH.
Qed.

Lemma for_named_Some input_file name (pairs : list (string * json)) fields :
  for_named input_file name pairs = Done (Some fields) →
  ∃ key contract,
    (key, contract) ∈ pairs ∧ contract_fields contract = Done fields.
Proof.
  induction pairs as [|[key contract] rest IH]; cbn [for_named]; [done|].
  destruct (unpack_key key) as [[filename nm]|e]; [|done]. cbn [outcome_bind].
  assert (for_named input_file name rest = Done (Some fields) →
          ∃ key0 contract0,
            (key0, contract0) ∈ (key, contract) :: rest ∧
            contract_fields contract0 = Done fields) as Hrest.
  { intros (k & c & Hin & Hf)%IH. exists k, c. split; [by right | done]. }
  destruct (_ && _); [|done].
  destruct (has_runtime_code contract) as [[]|e]; [|done|done].
  cbn [outcome_bind].
  destruct (contract_fields contract) as [fields'|e] eqn:Hf; [|done].
  intros [= <-]. exists key, contract. split; [by left | done].
Qed.

Lemma sorted_contracts_Done data pairs :
  sorted_contracts data = Done pairs →
  ∃ contracts,
    getitem data "contracts" = Return (JObj contracts) ∧
    pairs = sorted (map_to_list contracts).
Proof.
  unfold sorted_contracts.
  destruct (getitem data "contracts") as [[| | | | |contracts]|e]; try done.
  intros [= <-]. by exists contracts.
Qed.

(** The fields chosen are those of one contract of the compiler output. *)
Lemma select_contract_Done data input_file name fields name' :
  select_contract data input_file name = Done (fields, name') →
  ∃ contracts key contract,
    getitem data "contracts" = Return (JObj contracts) ∧
    contracts !! key = Some contract ∧
    contract_fields contract = Done fields.
Proof.
  unfold select_contract.
  destruct (sorted_contracts data) as [pairs|e] eqn:Hs;
    [|by destruct (truth name)].
  apply sorted_contracts_Done in Hs as (contracts & Hc & ->).
  destruct (truth name); cbn [outcome_bind].
  - destruct (for_named _ _ _) as [[fields'|]|e] eqn:Hloop; [|done|done].
    intros [= -> _].
    apply for_named_Some in Hloop as (key & contract & Hin & Hf).
    exists contracts, key, contract.
    by apply elem_of_sorted_contracts in Hin.
  - destruct (for_any _ _ None name) as [[[fields'|] nm]|e] eqn:Hloop;
      [|done|done].
    cbn [fst snd]. intros [= -> _].
    apply for_any_inv in Hloop
      as [_ [[? _]|(pre & key & contract & post & f & Hl & _ & Hf & [= <-] & _)]];
      [done|].
    exists contracts, key, contract. split_and!; [done| |done].
    apply elem_of_sorted_contracts. rewrite Hl. set_solver.
Qed.

Lemma contract_fields_Done contract fields :
  contract_fields contract = Done fields →
  ∃ raw_runtime raw_constructor,
    getitem contract "bin-runtime" = Return (Selection.code fields) ∧
    getitem contract "bin" = Return (Selection.creation_code fields) ∧
    getitem contract "srcmap-runtime" = Return (JStr raw_runtime) ∧
    getitem contract "srcmap" = Return (JStr raw_constructor) ∧
    Selection.srcmap fields = split ";" raw_runtime ∧
    Selection.srcmap_constructor fields = split ";" raw_constructor.
Proof.
  unfold contract_fields.
  destruct (getitem contract "bin-runtime") as [code|e]; [|done].
  destruct (getitem contract "bin") as [creation_code|e]; [|done].
  destruct (getitem contract "srcmap-runtime") as [[| | |raw1| |]|e]; try done.
  destruct (getitem contract "srcmap") as [[| | |raw2| |]|e]; try done.
  simpl. intros [= <-]. by exists raw1, raw2.
Qed.

Lemma decode_any_contract {Instr : Type} (self self' : SolidityContract Instr)
    files raw constructor :
  solidity_files self = files →
  selected_mappings constructor self = [] →
  _get_solc_mappings self (split ";" raw) constructor = (self', Return tt) →
  decode files raw = (selected_mappings constructor self', Return tt).
Proof.
  intros Hf Hnil Hd.
  apply get_solc_mappings_spec in Hd as (_ & Hsel & _ & _ & _ & Hr).
  rewrite decode_entries, Hsel, Hnil.
  rewrite (entries_from_any_contract (new_contract files) self) by done.
  simpl. by rewrite <- Hr.
Qed.

(** X14. A contract that has been constructed holds the files it was given,
    and its two lists are the decodings of the two maps of one contract of
    the compiler output, each map decoded on its own over these files: the
    runtime list is what [srcmap-runtime] decodes to, the constructor list
    what [srcmap] decodes to, and neither is empty. The disassemblies are
    those of the bytecodes of that same contract. *)
Theorem constructed_contract :
  ∀ (Instr : Type)
    (evm_init : json → json → option string
                → outcome (Disassembly Instr * Disassembly Instr))
    files data input_file name (self : SolidityContract Instr),
    init_contract evm_init files data input_file name = Done self →
    ∃ contracts key contract raw_runtime raw_constructor code creation_code
      name',
      getitem data "contracts" = Return (JObj contracts) ∧
      contracts !! key = Some contract ∧
      getitem contract "srcmap-runtime" = Return (JStr raw_runtime) ∧
      getitem contract "srcmap" = Return (JStr raw_constructor) ∧
      getitem contract "bin-runtime" = Return code ∧
      getitem contract "bin" = Return creation_code ∧
      solidity_files self = files ∧
      decode files raw_runtime = (mappings self, Return tt) ∧
      decode files raw_constructor = (constructor_mappings self, Return tt) ∧
      mappings self ≠ [] ∧
      constructor_mappings self ≠ [] ∧
      evm_init code creation_code name'
      = Done (disassembly self, creation_disassembly self).
Proof.
  intros Instr evm_init files data input_file name self. unfold init_contract.
  destruct (select_contract data input_file name) as [[fields name']|e]
    eqn:Hsel; [|done].
  cbn [outcome_bind].
  apply select_contract_Done in Hsel as (contracts & key & contract & Hc & Hk & Hf).
  apply contract_fields_Done in Hf
    as (raw1 & raw2 & Hcode & Hcreation & Hraw1 & Hraw2 & -> & ->).
  destruct (_get_solc_mappings _ (split ";" raw1) false) as [self1 r1] eqn:H1.
  destruct r1 as [[]|e]; [|done]. cbn [lift outcome_bind].
  destruct (_get_solc_mappings self1 (split ";" raw2) true) as [self2 r2] eqn:H2.
  destruct r2 as [[]|e]; [|done]. cbn [lift outcome_bind].
  destruct (evm_init _ _ name') as [[d1 d2]|e] eqn:He; [|done].
  cbn [outcome_bind fst snd]. intros [= <-]. cbn.
  pose proof H1 as H1'. pose proof H2 as H2'.
  apply get_solc_mappings_spec in H1' as (Hf1 & _ & Hoth1 & _).
  apply get_solc_mappings_spec in H2' as (Hf2 & _ & Hoth2 & _).
  simpl in Hf1, Hoth1, Hoth2.
  assert (decode files raw1 = (mappings self1, Return tt)) as Hd1
    by (by apply (decode_any_contract _ _ files raw1 false) in H1).
  pose proof (decode_any_contract _ _ files raw2 true Hf1 Hoth1 H2) as Hd2.
  simpl in Hd1, Hd2. rewrite <- Hoth2 in Hd1.
  assert (∀ raw ms, decode files raw = (ms, Return tt) → ms ≠ []) as Hne.
  { intros raw ms Hd ->. rewrite decode_entries in Hd.
    injection Hd as Hms Hr.
    destruct (entries_from (new_contract files) initial_frame (split ";" raw)).2
      as [fr'|e] eqn:Hfr; [|done].
    apply entries_from_length in Hfr. rewrite Hms in Hfr.
    pose proof (split_not_nil ";" raw). by destruct (split ";" raw). }
  exists contracts, key, contract, raw1, raw2, (Selection.code fields),
    (Selection.creation_code fields), name'.
  split_and!; try done; [by rewrite Hf2 | by eapply Hne | by eapply Hne].
Qed.

Lemma constructed_contract_witness :
  ∃ contracts key contract raw_runtime raw_constructor code creation_code name',
    getitem solc_output "contracts" = Return (JObj contracts) ∧
    contracts !! key = Some contract ∧
    getitem contract "srcmap-runtime" = Return (JStr raw_runtime) ∧
    getitem contract "srcmap" = Return (JStr raw_constructor) ∧
    getitem contract "bin-runtime" = Return code ∧
    getitem contract "bin" = Return creation_code ∧
    two_files = two_files ∧
    decode two_files raw_runtime
    = ([SourceMapping.mk 0 24 10 (Some 2) "24:10:0"], Return tt) ∧
    decode two_files raw_constructor
    = ([SourceMapping.mk 0 0 6 (Some 1) "0:6:0"], Return tt) ∧
    [SourceMapping.mk 0 24 10 (Some 2) "24:10:0"] ≠ [] ∧
    [SourceMapping.mk 0 0 6 (Some 1) "0:6:0"] ≠ [] ∧
    evm_init_empty code creation_code name'
    = Done (empty_disassembly, empty_disassembly).
Proof.
  apply (constructed_contract unit evm_init_empty two_files solc_output
           "a.sol" (Some "C")
           {| solidity_files := two_files;
              mappings := [SourceMapping.mk 0 24 10 (Some 2) "24:10:0"];
              constructor_mappings := [SourceMapping.mk 0 0 6 (Some 1) "0:6:0"];
              disassembly := empty_disassembly;
              creation_disassembly := empty_disassembly |}).
  vm_compute. reflexivity.
Defined.

Lemma get_solc_mappings_first_token {Instr : Type}
    (self : SolidityContract Instr) item rest constructor :
  spells_three_fields item = false →
  ∃ e, _get_solc_mappings self (item :: rest) constructor = (self, Raise e) ∧
       DecodeError e.
Proof.
  intros Hs. destruct (loop_body_first_token self item Hs) as (e & Hb & He).
  exists e. split; [|done]. unfold _get_solc_mappings. simpl. by rewrite Hb.
Qed.

(** X15. A contract one of whose maps is empty, or begins with a token that
    leaves out one of its three fields, cannot be constructed: [__init__]
    raises the exception of the decoder. For the runtime map, which is
    decoded first, that is the decode error of its first token. *)
Theorem map_with_incomplete_first_token :
  ∀ (Instr : Type)
    (evm_init : json → json → option string
                → outcome (Disassembly Instr * Disassembly Instr))
    files data input_file name fields name' item rest,
    select_contract data input_file name = Done (fields, name') →
    spells_three_fields item = false →
    (Selection.srcmap fields = item :: rest →
     ∃ e, init_contract evm_init files data input_file name
          = Failed (Builtin e) ∧ DecodeError e) ∧
    (Selection.srcmap_constructor fields = item :: rest →
     ∃ e, init_contract evm_init files data input_file name
          = Failed (Builtin e)).
Proof.
  intros Instr evm_init files data input_file name fields name' item rest
    Hsel Hs.
  unfold init_contract. rewrite Hsel. cbn [outcome_bind]. split.
  - intros ->.
    destruct (get_solc_mappings_first_token
                ({| solidity_files := files; mappings := [];
                    constructor_mappings := [];
                    disassembly := {| instruction_list := [] |};
                    creation_disassembly := {| instruction_list := [] |} |}
                 : SolidityContract Instr) item rest false Hs)
      as (e & -> & He).
    by exists e.
  - intros ->.
    destruct (_get_solc_mappings _ (Selection.srcmap fields) false)
      as [self1 [[]|e1]]; [|by exists e1].
    cbn [lift outcome_bind].
    destruct (get_solc_mappings_first_token self1 item rest true Hs)
      as (e & -> & _).
    by exists e.
Qed.

Lemma map_with_incomplete_first_token_witness :
  ∃ e, init_contract evm_init_empty two_files solc_output_without_map
         "a.sol" None
       = Failed (Builtin e) ∧ DecodeError e.
Proof.
  apply (proj1 (map_with_incomplete_first_token unit evm_init_empty two_files
                  solc_output_without_map "a.sol" None
                  (Selection.mk (JStr "60") (JStr "6080") [""] ["0:6:0"])
                  (Some "C") "" []
                  ltac:(vm_compute; reflexivity) eq_refl)).
  reflexivity.
Defined.

(** * Where the values of an entry come from *)

Lemma entries_from_field_values {Instr : Type} (self : SolidityContract Instr)
    fr srcmap history (k : nat) m :
  field_value 0 history (v_offset fr) →
  field_value 1 history (v_length fr) →
  field_value 2 history (v_idx fr) →
  (entries_from self fr srcmap).1 !! k = Some m →
  let recorded :=
    history ++ (SourceMapping.solc_mapping
                  <$> take (S k) (entries_from self fr srcmap).1) in
  field_value 0 recorded (Some (SourceMapping.offset m)) ∧
  field_value 1 recorded (Some (SourceMapping.length m)) ∧
  field_value 2 recorded (Some (SourceMapping.solidity_file_idx m)).
Proof.
  revert fr history k.
  induction srcmap as [|item rest IH]; intros fr history k H0 H1 H2; [done|].
  simpl entries_from.
  destruct (loop_body self fr item) as [[fr1 m0]|e] eqn:Hb; [|done].
  apply loop_body_inv in Hb as (o & l & i & Ha & -> & Ht & Hs & _).
  injection Ht as Ho Hl Hi.
  unfold assign_fields in Ha.
  destruct (assign_field _ 0 _) as [o'|] eqn:Ha0; [|done].
  destruct (assign_field _ 1 _) as [l'|] eqn:Ha1; [|done].
  destruct (assign_field _ 2 _) as [i'|] eqn:Ha2; [|done].
  simpl in Ha. injection Ha as -> -> ->.
  pose proof (assign_field_value _ _ _ _ _ H0 Ha0) as H0'.
  pose proof (assign_field_value _ _ _ _ _ H1 Ha1) as H1'.
  pose proof (assign_field_value _ _ _ _ _ H2 Ha2) as H2'.
  set (fr1 := {| v_offset := Some o; v_length := Some l; v_idx := Some i;
                 v_prev_item := effective_item fr item |}).
  specialize (IH fr1 (history ++ [effective_item fr item])).
  destruct (entries_from self fr1 rest) as [ms r]. simpl in IH |- *.
  destruct k as [|k]; simpl.
  - intros [= <-]. rewrite Hs, Ho, Hl, Hi. done.
  - intros Hm. specialize (IH k H0' H1' H2' Hm).
    rewrite <- app_assoc in IH. simpl in IH. by rewrite Hs.
Qed.

(** X16. Delta decoding in closed form. In a list decoded from empty, the
    offset of an entry is the integer of the last non-empty first field
    among the tokens recorded up to that entry, its length that of the last
    non-empty second field and its file index that of the last non-empty
    third field. *)
Theorem values_come_from_latest_fields :
  ∀ (Instr : Type) (self self' : SolidityContract Instr) srcmap constructor r
    (k : nat) m,
    selected_mappings constructor self = [] →
    _get_solc_mappings self srcmap constructor = (self', r) →
    selected_mappings constructor self' !! k = Some m →
    let recorded :=
      SourceMapping.solc_mapping
        <$> take (S k) (selected_mappings constructor self') in
    ∃ field0 field1 field2,
      latest_field 0 recorded = Some field0 ∧
      int field0 = Return (SourceMapping.offset m) ∧
      latest_field 1 recorded = Some field1 ∧
      int field1 = Return (SourceMapping.length m) ∧
      latest_field 2 recorded = Some field2 ∧
      int field2 = Return (SourceMapping.solidity_file_idx m).
Proof.
  intros Instr self self' srcmap c r k m Hnil Hd Hm recorded.
  apply get_solc_mappings_spec in Hd as (_ & Hsel & _).
  rewrite Hnil in Hsel. simpl in Hsel. subst recorded. rewrite Hsel in Hm |- *.
  destruct (entries_from_field_values self initial_frame srcmap [] k m)
    as (H0 & H1 & H2); [done | done | done | done |].
  simpl in H0, H1, H2. unfold field_value in H0, H1, H2.
  destruct (latest_field 0 _) as [f0|]; [|done].
  destruct (latest_field 1 _) as [f1|]; [|done].
  destruct (latest_field 2 _) as [f2|]; [|done].
  destruct H0 as (n0 & ? & [= <-]), H1 as (n1 & ? & [= <-]),
    H2 as (n2 & ? & [= <-]).
  by exists f0, f1, f2.
Qed.

Lemma values_come_from_latest_fields_witness :
  ∃ field0 field1 field2,
    latest_field 0 ["10:5:0"; "15::1"] = Some field0 ∧
    int field0 = Return 15 ∧
    latest_field 1 ["10:5:0"; "15::1"] = Some field1 ∧
    int field1 = Return 5 ∧
    latest_field 2 ["10:5:0"; "15::1"] = Some field2 ∧
    int field2 = Return 1.
Proof.
  apply (values_come_from_latest_fields unit (new_contract two_files)
           (_get_solc_mappings (new_contract two_files)
              ["10:5:0"; "15::1"] false).1
           ["10:5:0"; "15::1"] false (Return tt) 1
           (SourceMapping.mk 1 15 5 (Some 2) "15::1")).
  - reflexivity.
  - vm_compute. reflexivity.
  - vm_compute. reflexivity.
Defined.

(** X17. What the decoder appends depends on the source files and on the
    map alone: two objects with the same files, whatever their lists and
    whichever list is selected, get the same entries appended for the same
    map and end the same way; and nothing but the selected list changes. *)
Theorem decoding_depends_on_files_only :
  ∀ (Instr : Type) (self1 self2 self1' self2' : SolidityContract Instr)
    srcmap constructor1 constructor2 r1 r2,
    solidity_files self1 = solidity_files self2 →
    _get_solc_mappings self1 srcmap constructor1 = (self1', r1) →
    _get_solc_mappings self2 srcmap constructor2 = (self2', r2) →
    r1 = r2 ∧
    solidity_files self1' = solidity_files self1 ∧
    disassembly self1' = disassembly self1 ∧
    creation_disassembly self1' = creation_disassembly self1 ∧
    ∃ new,
      selected_mappings constructor1 self1'
      = selected_mappings constructor1 self1 ++ new ∧
      selected_mappings constructor2 self2'
      = selected_mappings constructor2 self2 ++ new.
Proof.
  intros Instr self1 self2 self1' self2' srcmap c1 c2 r1 r2 Hf H1 H2.
  apply get_solc_mappings_spec in H1 as (Hf1 & Hsel1 & _ & Hd1 & Hcd1 & ->).
  apply get_solc_mappings_spec in H2 as (_ & Hsel2 & _ & _ & _ & ->).
  rewrite (entries_from_files self1 self2) in * by done.
  split_and!; try done. by eexists.
Qed.

Lemma decoding_depends_on_files_only_witness :
  Return tt = Return tt ∧
  solidity_files
    (_get_solc_mappings (new_contract two_files) ["24:10:0"] false).1
  = two_files ∧
  disassembly (_get_solc_mappings (new_contract two_files) ["24:10:0"] false).1
  = empty_disassembly ∧
  creation_disassembly
    (_get_solc_mappings (new_contract two_files) ["24:10:0"] false).1
  = empty_disassembly ∧
  ∃ new,
    mappings (_get_solc_mappings (new_contract two_files) ["24:10:0"] false).1
    = [] ++ new ∧
    constructor_mappings
      (_get_solc_mappings contract_with_internal_entry ["24:10:0"] true).1
    = [] ++ new.
Proof.
  apply (decoding_depends_on_files_only unit (new_contract two_files)
           contract_with_internal_entry
           (_get_solc_mappings (new_contract two_files) ["24:10:0"] false).1
           (_get_solc_mappings contract_with_internal_entry ["24:10:0"] true).1
           ["24:10:0"] false true (Return tt) (Return tt)).
  - reflexivity.
  - vm_compute. reflexivity.
  - vm_compute. reflexivity.
Defined.
